(** * NOSE event simulation: a shallow embedding of the scheduler DES

    The development follows the Python sources module by module:
    [process] (process.py), [event] (event.py), [des] (des.py) and
    [schedulers] (schedulers.py).

    Conventions of the embedding.
    - Time values are Python [numbers.Real] values.  They are taken in [Q]:
      arithmetic and comparisons are exact, and the [isinstance] guards of the
      constructors hold by typing (an identifier is a [Z], a time is a [Q]).
      [math.inf] occurs only as the default quantum, see [des.num].  The
      properties are stated on the results of single operations, on orders
      and on control flow; identities between the results of several
      operations, which rounding breaks, are not stated.
    - A method that mutates [self] takes the object and returns the new
      object next to its return value.
    - A call that may raise returns a [result]; the exception classes are
      those the sources raise.
    - The text of a string is not modelled.  Building the string of a
      process can raise, and does so whether or not the logger emits the
      message; [process.__str__] keeps that.  The strings of events, numbers
      and enumeration values never raise. *)

From Stdlib Require Import String QArith Qminmax ZArith Bool Arith Lia Lqa.
From Stdlib Require Import List Sorted Permutation.
From Equations Require Import Equations.
Import ListNotations.

Local Open Scope Q_scope.

(** ** Exceptions and results *)

Inductive exn : Type :=
| ValueError (msg : string)
| IndexError (msg : string)
| AttributeError (msg : string)
| ZeroDivisionError (msg : string).

Inductive result (A : Type) : Type :=
| Ok (a : A)
| Raise (e : exn).
Arguments Ok {A} a.
Arguments Raise {A} e.

Definition bind {A B : Type} (m : result A) (k : A -> result B) : result B :=
  match m with
  | Ok a => k a
  | Raise e => Raise e
  end.

Notation "x <- m ;; k" := (bind m (fun x => k))
  (at level 61, m at next level, right associativity).
Notation "' pat <- m ;; k" := (bind m (fun x => match x with pat => k end))
  (at level 61, pat pattern, m at next level, right associativity).

Definition is_ok {A : Type} (m : result A) : bool :=
  match m with Ok _ => true | Raise _ => false end.

(** ** Python comparisons and [min] on numbers *)

(** [a < b] *)
Definition Qltb (a b : Q) : bool := negb (Qle_bool b a).

(** [a <= b] *)
Definition Qleb (a b : Q) : bool := Qle_bool a b.

(** The builtin [min(a, b)]: the first argument is kept unless the second
    one is strictly smaller. *)
Definition pymin (a b : Q) : Q := if Qltb b a then b else a.

(** * process.py *)

Module process.

Inductive ProcessStates : Type := NEW | READY | RUNNING | TERMINATED.

Definition ProcessStates_eqb (a b : ProcessStates) : bool :=
  match a, b with
  | NEW, NEW | READY, READY | RUNNING, RUNNING | TERMINATED, TERMINATED => true
  | _, _ => false
  end.

Record Process : Type := mkProcess {
  process_id : Z;
  arrival_time : Q;
  process_state : ProcessStates;
  service_time : Q;
  remaining_time : Q;
  execution_times : list (Q * Q)
}.

(** [Process.__init__] *)
Definition init (process_id : Z) (arrival_time service_time : Q) : result Process :=
  if negb (0 <=? process_id)%Z then
    Raise (ValueError "Value {} not a non-negative (>= 0) integer.")
  else if negb (Qleb 0 arrival_time) then
    Raise (ValueError "Value {} not a positive (> 0) number.")
  else if negb (Qltb 0 service_time) then
    Raise (ValueError "Value {} not a positive (> 0) number.")
  else
    Ok {| process_id := process_id;
          arrival_time := arrival_time;
          process_state := NEW;
          service_time := service_time;
          remaining_time := service_time;
          execution_times := [] |}.

(** The setter of the [process_state] property. *)
Definition set_process_state (self : Process) (value : ProcessStates) : Process :=
  {| process_id := process_id self;
     arrival_time := arrival_time self;
     process_state := value;
     service_time := service_time self;
     remaining_time := remaining_time self;
     execution_times := execution_times self |}.

(** [self._execution_times[-1]] *)
Definition last_interval (self : Process) : option (Q * Q) :=
  match rev (execution_times self) with
  | [] => None
  | iv :: _ => Some iv
  end.

(** The [departure_time] property. *)
Definition departure_time (self : Process) : result Q :=
  if negb (ProcessStates_eqb (process_state self) TERMINATED) then
    Raise (ValueError "Requested departure time of non-terminated process")
  else
    match last_interval self with
    | Some iv => Ok (snd iv)
    | None => Raise (IndexError "list index out of range")
    end.

(** [waiting_time]: the loop over the execution intervals carries
    [(sum_waiting_time, prev_time)]. *)
Definition waiting_time (self : Process) : Q :=
  fst (fold_left
         (fun (acc : Q * Q) (t : Q * Q) => (fst acc + (fst t - snd acc), snd t))
         (execution_times self)
         (0, arrival_time self)).

(** [turnaround_time] *)
Definition turnaround_time (self : Process) : result Q :=
  d <- departure_time self ;;
  Ok (d - arrival_time self).

(** [__str__]: the text reads [departure_time] when the process is
    [TERMINATED], and the remaining time otherwise. *)
Definition __str__ (self : Process) : result unit :=
  if ProcessStates_eqb (process_state self) TERMINATED then
    _ <- departure_time self ;;
    Ok tt
  else Ok tt.

(** [run_for(quantum, cur_time)]: the new object and the returned
    duration.  The bare expression statement [ProcessStates.READY] of the
    source has no effect. *)
Definition run_for (self : Process) (quantum cur_time : Q) : result (Process * Q) :=
  let actually_run_for := pymin quantum (remaining_time self) in
  let self' :=
    {| process_id := process_id self;
       arrival_time := arrival_time self;
       process_state := process_state self;
       service_time := service_time self;
       remaining_time := remaining_time self - actually_run_for;
       execution_times :=
         execution_times self ++ [(cur_time, cur_time + actually_run_for)] |} in
  Ok (self', actually_run_for).

End process.

(** * event.py *)

Module event.

Inductive EventTypes : Type := PROC_ARRIVES | PROC_CPU_REQ | PROC_CPU_DONE.

Definition EventTypes_eqb (a b : EventTypes) : bool :=
  match a, b with
  | PROC_ARRIVES, PROC_ARRIVES
  | PROC_CPU_REQ, PROC_CPU_REQ
  | PROC_CPU_DONE, PROC_CPU_DONE => true
  | _, _ => false
  end.

Record Event : Type := mkEvent {
  event_type : EventTypes;
  event_time : Q;
  process_id : Z
}.

(** [Event.__init__] *)
Definition init (process_id : Z) (event_type : EventTypes) (event_time : Q) : result Event :=
  if negb (Qleb 0 event_time) then
    Raise (ValueError "Value {} not a non-negative number.")
  else if negb (0 <=? process_id)%Z then
    Raise (ValueError "Value {} not a non-negative integer.")
  else
    Ok {| event_type := event_type;
          event_time := event_time;
          process_id := process_id |}.

(** [Event.__lt__]: events compare by time only. *)
Definition lt (self other : Event) : bool :=
  Qltb (event_time self) (event_time other).

End event.

(** * The levels of the [logging] module that des.py uses *)

Module logging.

(** The effective level of the logger; [WARNING] stands for itself and
    the levels above it, and is the level main.py configures by default. *)
Inductive Level : Type := DEBUG | INFO | WARNING.

(** [logger.isEnabledFor(asked)] on a logger of level [configured]. *)
Definition isEnabledFor (configured asked : Level) : bool :=
  match configured, asked with
  | DEBUG, _ => true
  | INFO, DEBUG => false
  | INFO, _ => true
  | WARNING, WARNING => true
  | WARNING, _ => false
  end.

End logging.

(** * des.py *)

Module des.
Import process event.

(** ** The events queue: a [deque] kept sorted with [bisect.insort] *)

(** [bisect.bisect_right(a, x, lo, hi)] with the default key: the loop
    [while lo < hi: mid = (lo + hi) // 2; if x < a[mid]: hi = mid
    else: lo = mid + 1].  The index [mid] is below [len(a)] whenever
    [hi <= len(a)], which is how [insort] calls it. *)
Equations? bisect_right (a : list Event) (x : Event) (lo hi : nat) : nat
  by wf (hi - lo)%nat Peano.lt :=
  bisect_right a x lo hi with lt_dec lo hi := {
    | right _ := lo
    | left Hlt with nth_error a ((lo + hi) / 2) := {
        | None := lo
        | Some a_mid with event.lt x a_mid := {
            | true := bisect_right a x lo ((lo + hi) / 2)
            | false := bisect_right a x (S ((lo + hi) / 2)) hi } } }.
Proof.
  all: change (fst (Nat.divmod (lo + hi) 1 0 1)) with ((lo + hi) / 2)%nat.
  all: pose proof (Nat.div_mod_eq (lo + hi) 2) as Hd.
  all: pose proof (Nat.mod_upper_bound (lo + hi) 2 ltac:(lia)) as Hm.
  all: lia.
Qed.

(** [a.insert(i, x)] *)
Definition insert (a : list Event) (i : nat) (x : Event) : list Event :=
  firstn i a ++ x :: skipn i a.

(** [bisect.insort(a, x)], that is [insort_right] *)
Definition insort (a : list Event) (x : Event) : list Event :=
  insert a (bisect_right a x 0 (length a)) x.

(** [deque.popleft()] *)
Definition popleft (a : list Event) : result (Event * list Event) :=
  match a with
  | [] => Raise (IndexError "pop from an empty deque")
  | x :: a' => Ok (x, a')
  end.

(** A linear scan of the queue from front to back: no event is earlier
    than the one before it. *)
Fixpoint scan_non_decreasing (a : list Event) : bool :=
  match a with
  | [] => true
  | x :: a' =>
      match a' with
      | [] => true
      | y :: _ => Qleb (event_time x) (event_time y) && scan_non_decreasing a'
      end
  end.

(** The order a scan checks between neighbours. *)
Definition le_time (a b : Event) : Prop := event_time a <= event_time b.

(** The two queue operations the simulator performs, and the queues seen
    after each operation of a sequence that starts from [q].  A [popleft]
    on an empty deque raises and leaves it empty. *)
Inductive queue_op : Type :=
| Insort (e : Event)
| Popleft.

Definition apply_op (q : list Event) (op : queue_op) : list Event :=
  match op with
  | Insort e => insort q e
  | Popleft => match popleft q with
               | Ok (_, q') => q'
               | Raise _ => q
               end
  end.

Fixpoint queue_history (q : list Event) (ops : list queue_op) : list (list Event) :=
  match ops with
  | [] => []
  | op :: ops' => apply_op q op :: queue_history (apply_op q op) ops'
  end.

(** ** numpy.random *)

(** The global generator of [numpy.random]: its states, the state that
    [random.seed(n)] installs, the reseeding from operating-system entropy
    of [random.seed(None)], and the standard exponential draw. *)
Record Random : Type := mkRandom {
  rng : Type;
  seed_with : Z -> rng;
  seed_entropy : rng -> rng;
  standard_exponential : rng -> Q * rng
}.

(** [random.seed(seed)] *)
Definition seed (R : Random) (s : option Z) (g : rng R) : rng R :=
  match s with
  | Some n => seed_with R n
  | None => seed_entropy R g
  end.

(** [random.exponential(scale)]: numpy rejects a negative scale and
    otherwise returns [scale] times a standard exponential draw. *)
Definition exponential (R : Random) (scale : Q) (g : rng R) : result (Q * rng R) :=
  if Qltb scale 0 then Raise (ValueError "scale < 0")
  else let (x, g') := standard_exponential R g in Ok (scale * x, g').

(** ** The simulator object *)

(** A quantum is a number or [math.inf]. *)
Inductive num : Type :=
| Fin (q : Q)
| Inf.

(** [0.0 < quantum] *)
Definition num_pos (n : num) : bool :=
  match n with
  | Fin q => Qltb 0 q
  | Inf => true
  end.

(** The attributes of a [SchedulerDES] object.  [process_on_cpu] refers to
    a process of the table by its position ([None] before the first
    assignment); [policy_state] stands for the attributes a subclass adds. *)
Record SchedulerDES (PS : Type) : Type := mkSchedulerDES {
  num_processes : Z;
  _arrivals_per_time_unit : Q;
  _avg_cpu_burst_time : Q;
  context_switch_time : Q;
  quantum : num;
  process_on_cpu : option nat;
  time : Q;
  events_queue : list Event;
  processes : list Process;
  policy_state : PS
}.
Arguments mkSchedulerDES {PS}.
Arguments num_processes {PS}.
Arguments _arrivals_per_time_unit {PS}.
Arguments _avg_cpu_burst_time {PS}.
Arguments context_switch_time {PS}.
Arguments quantum {PS}.
Arguments process_on_cpu {PS}.
Arguments time {PS}.
Arguments events_queue {PS}.
Arguments processes {PS}.
Arguments policy_state {PS}.

(** What a policy hook hands back: the process table and the subclass
    attributes as it leaves them, and its return value. *)
Record hook (PS A : Type) : Type := mkHook {
  hook_processes : list Process;
  hook_state : PS;
  hook_value : A
}.
Arguments mkHook {PS A}.
Arguments hook_processes {PS A}.
Arguments hook_state {PS A}.
Arguments hook_value {PS A}.

(** The two methods a subclass overrides.  A hook reads the whole
    simulator; it writes the processes of the table (in place, so a
    position keeps denoting the same object) and the subclass's own
    attributes.  The clock, the queue and [process_on_cpu] are assigned by
    [run] only.  [scheduler_func] returns [None] or a process of the
    table. *)
Record Policy (PS : Type) : Type := mkPolicy {
  scheduler_func : SchedulerDES PS -> Event -> result (hook PS (option nat));
  dispatcher_func : SchedulerDES PS -> nat -> result (hook PS Event)
}.
Arguments mkPolicy {PS}.
Arguments scheduler_func {PS}.
Arguments dispatcher_func {PS}.

Section Simulator.
Context {PS : Type}.
Local Abbreviation Sim := (SchedulerDES PS).

Definition set_time (self : Sim) (t : Q) : Sim :=
  mkSchedulerDES (num_processes self) (_arrivals_per_time_unit self)
    (_avg_cpu_burst_time self) (context_switch_time self) (quantum self)
    (process_on_cpu self) t (events_queue self) (processes self)
    (policy_state self).

Definition set_events_queue (self : Sim) (q : list Event) : Sim :=
  mkSchedulerDES (num_processes self) (_arrivals_per_time_unit self)
    (_avg_cpu_burst_time self) (context_switch_time self) (quantum self)
    (process_on_cpu self) (time self) q (processes self)
    (policy_state self).

Definition set_processes (self : Sim) (ps : list Process) : Sim :=
  mkSchedulerDES (num_processes self) (_arrivals_per_time_unit self)
    (_avg_cpu_burst_time self) (context_switch_time self) (quantum self)
    (process_on_cpu self) (time self) (events_queue self) ps
    (policy_state self).

Definition set_process_on_cpu (self : Sim) (p : option nat) : Sim :=
  mkSchedulerDES (num_processes self) (_arrivals_per_time_unit self)
    (_avg_cpu_burst_time self) (context_switch_time self) (quantum self)
    p (time self) (events_queue self) (processes self)
    (policy_state self).

Definition set_policy_state (self : Sim) (s : PS) : Sim :=
  mkSchedulerDES (num_processes self) (_arrivals_per_time_unit self)
    (_avg_cpu_burst_time self) (context_switch_time self) (quantum self)
    (process_on_cpu self) (time self) (events_queue self) (processes self)
    s.

(** The simulator after a hook returned. *)
Definition commit {A : Type} (self : Sim) (h : hook PS A) : Sim :=
  set_policy_state (set_processes self (hook_processes h)) (hook_state h).

(** [SchedulerDES.__init__]; [ps] is the initial value of the subclass
    attributes. *)
Definition init (num_processes : Z) (arrivals_per_time_unit avg_cpu_burst_time : Q)
    (context_switch_time : Q) (quantum : num) (ps : PS) : result Sim :=
  if negb (0 <? num_processes)%Z then
    Raise (ValueError "Value {} not a positive (> 0) integer.")
  else if negb (Qltb 0 arrivals_per_time_unit) then
    Raise (ValueError "Value {} not a positive (> 0) number.")
  else if negb (Qleb 0 avg_cpu_burst_time) then
    Raise (ValueError "Value {} not a positive (> 0) number.")
  else if negb (Qleb 0 context_switch_time) then
    Raise (ValueError "Value {} not a positive (> 0) number.")
  else if negb (num_pos quantum) then
    Raise (ValueError "Value {} not a positive (> 0) number.")
  else
    Ok (mkSchedulerDES num_processes arrivals_per_time_unit avg_cpu_burst_time
          context_switch_time quantum None 0 [] [] ps).

(** [__reset] *)
Definition reset (self : Sim) : Sim :=
  set_process_on_cpu (set_processes (set_events_queue (set_time self 0) []) []) None.

(** The body of the loop of [generate_and_init], run [n] more times from
    index [i] with the local [cur_time]. *)
Fixpoint generate_loop (R : Random) (n : nat) (i : Z) (cur_time : Q)
    (self : Sim) (g : rng R) : result (Sim * rng R) :=
  match n with
  | O => Ok (self, g)
  | S n' =>
      '(a, g1) <- exponential R (1 / _arrivals_per_time_unit self) g ;;
      let cur_time := cur_time + a in
      '(s, g2) <- exponential R (_avg_cpu_burst_time self) g1 ;;
      new_process <- process.init i cur_time s ;;
      let self1 := set_processes self (processes self ++ [new_process]) in
      new_event <- event.init (process.process_id new_process) PROC_ARRIVES cur_time ;;
      let self2 := set_events_queue self1 (insort (events_queue self1) new_event) in
      generate_loop R n' (i + 1)%Z cur_time self2 g2
  end.

(** [generate_and_init(seed)] *)
Definition generate_and_init (R : Random) (self : Sim) (s : option Z) (g : rng R)
    : result (Sim * rng R) :=
  let self := reset self in
  let g := seed R s g in
  generate_loop R (Z.to_nat (num_processes self)) 0%Z 0 self g.

(** [next_event_time] *)
Fixpoint first_after (t : Q) (q : list Event) : num :=
  match q with
  | [] => Inf
  | e :: q' => if Qltb t (event_time e) then Fin (event_time e) else first_after t q'
  end.

Definition next_event_time (self : Sim) : num :=
  first_after (time self) (events_queue self).

(** [__update_process_states] *)
Definition update_process_states (self : Sim) : Sim :=
  set_processes self
    (map (fun p =>
            if Qleb (process.arrival_time p) (time self)
               && ProcessStates_eqb (process_state p) NEW
            then set_process_state p READY
            else p)
         (processes self)).

(** [print_processes]: the string of every process is built, in the order
    of the table. *)
Fixpoint each_str (ps : list Process) : result unit :=
  match ps with
  | [] => Ok tt
  | p :: ps' => _ <- process.__str__ p ;; each_str ps'
  end.

Definition print_processes (self : Sim) : result unit := each_str (processes self).

(** ** The main loop of [run] *)

Variable policy : Policy PS.

(** The effective level of [self._logger]. *)
Variable level : logging.Level.

(** [__log_processes(asked)] *)
Definition log_processes (asked : logging.Level) (self : Sim) : result unit :=
  if negb (logging.isEnabledFor level asked) then Ok tt
  else print_processes self.

(** [str(self.process_on_cpu)]; the string of [None] never raises, and a
    position that is not in the table holds no process whose string could
    be built. *)
Definition str_process_on_cpu (self : Sim) : result unit :=
  match process_on_cpu self with
  | None => Ok tt
  | Some on_cpu =>
      match nth_error (processes self) on_cpu with
      | Some p => process.__str__ p
      | None => Ok tt
      end
  end.

(** [process_to_run != self.process_on_cpu]: [Process] defines no
    [__eq__], so the comparison is by identity. *)
Definition differs (process_to_run : nat) (on_cpu : option nat) : bool :=
  match on_cpu with
  | None => true
  | Some p => negb (Nat.eqb process_to_run p)
  end.

(** The simulator after [popleft] gave [cur_event] and the clock and the
    process states were brought up to it. *)
Definition advance (self : Sim) (cur_event : Event) (rest : list Event) : Sim :=
  let self := set_events_queue self rest in
  let self :=
    if Qltb (time self) (event_time cur_event)
    then set_time self (event_time cur_event)
    else self in
  update_process_states self.

(** The call of [scheduler_func] and the two checks on what it returns.
    Reading the state of a position that is not in the table stands for
    the [IndexError] of the hook's own lookup.  Between the checks the
    message of [self._logger.info] is built, with the string of the process
    on the CPU; the message of the second [ValueError] is built with the
    string of the selected process. *)
Definition select (self : Sim) (cur_event : Event) : result (Sim * nat) :=
  h <- scheduler_func policy self cur_event ;;
  let self := commit self h in
  match hook_value h with
  | None => Raise (ValueError "Scheduler didn't select any process to run!!!")
  | Some process_to_run =>
      match nth_error (processes self) process_to_run with
      | None => Raise (IndexError "list index out of range")
      | Some p =>
          _ <- str_process_on_cpu self ;;
          if negb (ProcessStates_eqb (process_state p) READY) then
            _ <- process.__str__ p ;;
            Raise (ValueError "Process {} not in runnable state ({}).")
          else Ok (self, process_to_run)
      end
  end.

(** The context switch. *)
Definition switch (self : Sim) (process_to_run : nat) : Sim :=
  if differs process_to_run (process_on_cpu self) then
    let self := set_process_on_cpu self (Some process_to_run) in
    set_time self (time self + context_switch_time self)
  else self.

(** The call of [dispatcher_func]. *)
Definition dispatch (self : Sim) (process_to_run : nat) : result (Sim * Event) :=
  h <- dispatcher_func policy self process_to_run ;;
  Ok (commit self h, hook_value h).

(** The resulting event is queued unless it is a [PROC_CPU_DONE], and
    the clock is set to its time. *)
Definition conclude (self : Sim) (ret_event : Event) : Sim :=
  let self :=
    if negb (EventTypes_eqb (event_type ret_event) PROC_CPU_DONE)
    then set_events_queue self (insort (events_queue self) ret_event)
    else self in
  set_time self (event_time ret_event).

(** One iteration of [while self.events_queue], on a queue whose first
    event is [cur_event].  Next to the simulator it leaves, the
    iteration reports the clock at which it called the dispatcher and
    the event the dispatcher returned.  The process table is logged at
    [INFO] once the states are updated. *)
Definition iteration (self : Sim) (cur_event : Event) (rest : list Event)
    : result (Sim * (Q * Event)) :=
  let self := advance self cur_event rest in
  _ <- log_processes logging.INFO self ;;
  '(self, process_to_run) <- select self cur_event ;;
  let self := switch self process_to_run in
  let clock_at_dispatch := time self in
  '(self, ret_event) <- dispatch self process_to_run ;;
  Ok (conclude self ret_event, (clock_at_dispatch, ret_event)).

(** What is seen of an iteration: the clock when it starts, the event it
    pops and, unless the iteration raises, the clock at the call of the
    dispatcher with the event the dispatcher returns. *)
Record Step : Type := mkStep {
  clock_at_start : Q;
  cur_event : Event;
  dispatched : option (Q * Event)
}.

(** How the loop ends: the queue is empty, an exception leaves [run], or
    more than [fuel] iterations are needed. *)
Inductive outcome : Type :=
| Finished (self : Sim)
| Aborted (e : exn)
| Unfinished (self : Sim).

Fixpoint run_loop (fuel : nat) (self : Sim) : list Step * outcome :=
  match events_queue self with
  | [] => ([], Finished self)
  | cur :: rest =>
      match fuel with
      | O => ([], Unfinished self)
      | S fuel' =>
          match iteration self cur rest with
          | Raise e => ([mkStep (time self) cur None], Aborted e)
          | Ok (self', d) =>
              let (steps, o) := run_loop fuel' self' in
              (mkStep (time self) cur (Some d) :: steps, o)
          end
      end
  end.

(** [run(seed)]: the process table is logged at [DEBUG] before the loop
    and after it. *)
Definition run (R : Random) (fuel : nat) (self : Sim) (s : option Z) (g : rng R)
    : list Step * outcome :=
  match generate_and_init R self s g with
  | Raise e => ([], Aborted e)
  | Ok (self, _) =>
      match log_processes logging.DEBUG self with
      | Raise e => ([], Aborted e)
      | Ok _ =>
          let (steps, o) := run_loop fuel self in
          match o with
          | Finished self' =>
              match log_processes logging.DEBUG self' with
              | Raise e => (steps, Aborted e)
              | Ok _ => (steps, Finished self')
              end
          | _ => (steps, o)
          end
      end
  end.

(** The turnaround and waiting time of every process, as
    [print_statistics] reads them, and those of the simulator a run
    leaves. *)
Definition process_statistics (self : Sim) : list (result Q * Q) :=
  map (fun p => (turnaround_time p, waiting_time p)) (processes self).

Definition final_statistics (o : outcome) : option (list (result Q * Q)) :=
  match o with
  | Finished self => Some (process_statistics self)
  | Aborted _ => None
  | Unfinished self => Some (process_statistics self)
  end.

(** The dispatcher returned an event that is not earlier than the clock
    at which it was called. *)
Definition timely (st : Step) : Prop :=
  match dispatched st with
  | Some (clock_at_dispatch, ret_event) => clock_at_dispatch <= event_time ret_event
  | None => True
  end.

(** Two simulator objects built with the same arguments and holding the
    same subclass attributes; the clock, the queue, the process table
    and [process_on_cpu] may differ. *)
Definition same_configuration (a b : Sim) : Prop :=
  num_processes a = num_processes b
  /\ _arrivals_per_time_unit a = _arrivals_per_time_unit b
  /\ _avg_cpu_burst_time a = _avg_cpu_burst_time b
  /\ context_switch_time a = context_switch_time b
  /\ quantum a = quantum b
  /\ policy_state a = policy_state b.

(** [print_statistics]: the two averages it prints. *)
Definition print_statistics (self : Sim) : result (Q * Q) :=
  sums <- fold_left
            (fun (acc : result (Q * Q)) (p : Process) =>
               '(sum_turnaround_time, sum_waiting_time) <- acc ;;
               t <- turnaround_time p ;;
               Ok (sum_turnaround_time + t, sum_waiting_time + waiting_time p))
            (processes self) (Ok (0, 0)) ;;
  match processes self with
  | [] => Raise (ZeroDivisionError "float division by zero")
  | _ :: _ =>
      let n := inject_Z (Z.of_nat (length (processes self))) in
      Ok (fst sums / n, snd sums / n)
  end.

End Simulator.

Arguments Step : clear implicits.
Arguments timely : clear implicits.
Arguments outcome : clear implicits.
End des.

(** * schedulers.py *)

Module schedulers.
Import process event des.

(** The hooks of [SchedulerDES] itself, inherited unchanged by [SJF], [RR]
    and [SRTF]: both bodies are [pass] and return [None].  The loop reads
    [ret_event.event_type] of what the dispatcher returns, which raises on
    [None]. *)
Definition base : Policy unit :=
  mkPolicy
    (fun self _ => Ok (mkHook (processes self) (policy_state self) None))
    (fun _ _ => Raise (AttributeError "'NoneType' object has no attribute 'event_type'")).

Definition SJF : Policy unit := base.
Definition RR : Policy unit := base.
Definition SRTF : Policy unit := base.

(** [self.processes[i]] for a Python integer [i]. *)
Definition index (ps : list Process) (i : Z) : result nat :=
  let n := Z.of_nat (length ps) in
  if (0 <=? i)%Z && (i <? n)%Z then Ok (Z.to_nat i)
  else if (i <? 0)%Z && (- n <=? i)%Z then Ok (Z.to_nat (n + i))
  else Raise (IndexError "list index out of range").

(** [FCFS]: the scheduler returns the process of the current event; the
    first statement of the dispatcher reads the attribute
    [__process_state], mangled to [_FCFS__process_state], which no
    [Process] has. *)
Definition FCFS : Policy unit :=
  mkPolicy
    (fun self cur_event =>
       i <- index (processes self) (event.process_id cur_event) ;;
       Ok (mkHook (processes self) (policy_state self) (Some i)))
    (fun _ _ =>
       Raise (AttributeError "'Process' object has no attribute '_FCFS__process_state'")).

End schedulers.

(** * Subclasses and a generator to run the simulator on

    [schedulers.py] leaves the hooks unfinished.  The policies below fill
    them in the way the docstrings of [scheduler_func] and
    [dispatcher_func] describe, over the operations of [process.py] and
    [event.py]. *)

Module fixtures.
Import process event des.

(** A generator that replays a tape of standard exponential draws; every
    seed rewinds the tape. *)
Definition replay (tape : list Q) : Random :=
  mkRandom (list Q) (fun _ => tape) (fun g => g)
    (fun g => match g with
              | [] => (1, [])
              | x :: g' => (x, g')
              end).

(** [ps[i] = p] *)
Fixpoint store (ps : list Process) (i : nat) (p : Process) : list Process :=
  match ps, i with
  | [], _ => []
  | _ :: ps', O => p :: ps'
  | q :: ps', S i' => q :: store ps' i' p
  end.

(** The scheduler of [FCFS]: the process of the current event. *)
Definition select_current (self : SchedulerDES unit) (cur_event : Event)
    : result (hook unit (option nat)) :=
  i <- schedulers.index (processes self) (event.process_id cur_event) ;;
  Ok (mkHook (processes self) (policy_state self) (Some i)).

(** A dispatcher that runs the selected process to the end of its burst:
    the process is set to [RUNNING], run for its remaining time, set to
    [final], and a [PROC_CPU_DONE] event stamped [stamp clock used] is
    returned. *)
Definition run_whole (stamp : Q -> Q -> Q) (final : ProcessStates)
    (self : SchedulerDES unit) (i : nat) : result (hook unit Event) :=
  match nth_error (processes self) i with
  | None => Raise (IndexError "list index out of range")
  | Some cur_process =>
      let cur_process := set_process_state cur_process RUNNING in
      '(cur_process, used) <-
        run_for cur_process (remaining_time cur_process) (time self) ;;
      let cur_process := set_process_state cur_process final in
      ev <- event.init (process.process_id cur_process) PROC_CPU_DONE
              (stamp (time self) used) ;;
      Ok (mkHook (store (processes self) i cur_process) (policy_state self) ev)
  end.

(** First come, first served: the event is stamped with the clock plus
    the time used, and the process ends [TERMINATED]. *)
Definition fcfs : Policy unit :=
  mkPolicy select_current (run_whole (fun clock used => clock + used) TERMINATED).

(** As [fcfs], but the dispatcher hands the process back as [READY]: it
    never marks it [TERMINATED]. *)
Definition fcfs_no_termination : Policy unit :=
  mkPolicy select_current (run_whole (fun clock used => clock + used) READY).

(** As [fcfs], but the event is stamped with the time used alone. *)
Definition fcfs_stamps_duration : Policy unit :=
  mkPolicy select_current (run_whole (fun _ used => used) TERMINATED).

(** A workload of three processes that arrive at 1, 2 and 3 and need 5, 1
    and 1 units: the draws of inter-arrival and service times alternate. *)
Definition tape : list Q := [1; 5; 1; 1; 1; 1].

(** [SchedulerDES(num_processes=3, arrivals_per_time_unit=1,
    avg_cpu_burst_time=1, context_switch_time=cs)] *)
Definition simulator (cs : Q) : SchedulerDES unit :=
  mkSchedulerDES 3 1 1 cs Inf None 0 [] [] tt.

(** The simulator after [generate_and_init] on the tape. *)
Definition generated (cs : Q) : SchedulerDES unit :=
  Eval vm_compute in
    match generate_and_init (replay tape) (simulator cs) (Some 1%Z) [] with
    | Ok (self, _) => self
    | Raise _ => simulator cs
    end.

(** A simulator that an earlier run left behind. *)
Definition used_simulator : SchedulerDES unit :=
  Eval vm_compute in
    match run fcfs logging.WARNING (replay tape) 10 (simulator 0) (Some 1%Z) [] with
    | (_, Finished self) => self
    | _ => simulator 0
    end.

(** An empty queue next to a process that is still [READY]. *)
Definition idle_with_ready_process : SchedulerDES unit :=
  mkSchedulerDES 1 1 1 0 Inf None 0 [] [mkProcess 0 0 READY 5 5 []] tt.

End fixtures.

(** * Notions used to state properties of the sources *)

Module notions.
Import process event des.

(** Consecutive calls [run_for(quantum, cur_time)] on one process, one
    pair per call; the durations returned are collected. *)
Fixpoint run_for_each (self : Process) (calls : list (Q * Q))
    : result (Process * list Q) :=
  match calls with
  | [] => Ok (self, [])
  | (quantum, cur_time) :: calls' =>
      '(self, used) <- run_for self quantum cur_time ;;
      '(self, useds) <- run_for_each self calls' ;;
      Ok (self, used :: useds)
  end.

(** Intervals that follow each other in time, none starting before
    [prev] and none ending before it starts. *)
Fixpoint chronological (prev : Q) (ivs : list (Q * Q)) : Prop :=
  match ivs with
  | [] => True
  | iv :: ivs' => prev <= fst iv /\ fst iv <= snd iv /\ chronological (snd iv) ivs'
  end.

(** The event [generate_and_init] queues for a process. *)
Definition arrival_event (p : Process) : Event :=
  mkEvent PROC_ARRIVES (arrival_time p) (process.process_id p).

(** A process as [generate_and_init] leaves it. *)
Definition fresh (p : Process) : Prop :=
  process_state p = NEW
  /\ remaining_time p = service_time p
  /\ 0 < service_time p
  /\ 0 <= arrival_time p
  /\ execution_times p = [].

(** What [generate_and_init] produced: the process table, the queue and
    the state of the generator, or the exception. *)
Definition workload {PS : Type} (R : Random) (r : result (SchedulerDES PS * rng R))
    : result (list Process * list Event * rng R) :=
  '(self, g) <- r ;;
  Ok (processes self, events_queue self, g).

(** The configuration of a simulator. *)
Definition configuration {PS : Type} (self : SchedulerDES PS) : Z * Q * Q * Q * num :=
  (num_processes self, _arrivals_per_time_unit self, _avg_cpu_burst_time self,
   context_switch_time self, quantum self).

(** A simulator whose only process was set to [TERMINATED] before it ever
    ran, its arrival event still queued. *)
Definition terminated_before_running : SchedulerDES unit :=
  mkSchedulerDES 1 1 1 0 Inf None 0
    [mkEvent PROC_ARRIVES 0 0] [mkProcess 0 0 TERMINATED 5 5 []] tt.

(** A simulator whose CPU is recorded as held by a process that was set to
    [TERMINATED] before it ever ran, while a second process arrives. *)
Definition cpu_held_by_terminated : SchedulerDES unit :=
  mkSchedulerDES 2 1 1 0 Inf (Some 0%nat) 0
    [mkEvent PROC_ARRIVES 0 1]
    [mkProcess 0 0 TERMINATED 5 5 []; mkProcess 1 0 NEW 5 5 []] tt.

(** A generator whose draws are 0, 1, 2, ...: its state is the next draw. *)
Definition counting : Random :=
  mkRandom nat Z.to_nat (fun g => g) (fun g => (inject_Z (Z.of_nat g), S g)).

End notions.

(** * Properties *)

(** ** Numbers *)

Lemma Qltb_lt (a b : Q) : Qltb a b = true <-> a < b.
Proof.
  unfold Qltb. rewrite negb_true_iff. split; intro H.
  - apply Qnot_le_lt. intro Hle. apply Qle_bool_iff in Hle. congruence.
  - destruct (Qle_bool b a) eqn:E; [|reflexivity].
    apply Qle_bool_iff in E. exfalso. apply (Qlt_not_le _ _ H E).
Qed.

Lemma Qltb_ge (a b : Q) : Qltb a b = false <-> b <= a.
Proof.
  unfold Qltb. rewrite negb_false_iff. apply Qle_bool_iff.
Qed.

Lemma Qleb_le (a b : Q) : Qleb a b = true <-> a <= b.
Proof. apply Qle_bool_iff. Qed.

Lemma pymin_cases (a b : Q) :
  (b < a /\ pymin a b = b) \/ (a <= b /\ pymin a b = a).
Proof.
  unfold pymin. destruct (Qltb b a) eqn:E.
  - left. split; [apply Qltb_lt; assumption | reflexivity].
  - right. split; [apply Qltb_ge; assumption | reflexivity].
Qed.

Lemma pymin_le_l (a b : Q) : pymin a b <= a.
Proof. destruct (pymin_cases a b) as [[H ->]|[H ->]]; lra. Qed.

Lemma pymin_le_r (a b : Q) : pymin a b <= b.
Proof. destruct (pymin_cases a b) as [[H ->]|[H ->]]; lra. Qed.

(** ** Processes *)

Section ProcessFacts.
Import process.

Lemma last_interval_snoc (self : Process) (l : list (Q * Q)) (iv : Q * Q) :
  execution_times self = l ++ [iv] -> last_interval self = Some iv.
Proof.
  unfold last_interval. intros ->. rewrite rev_app_distr. reflexivity.
Qed.

Lemma ProcessStates_eqb_eq (a b : ProcessStates) :
  ProcessStates_eqb a b = true <-> a = b.
Proof. destruct a, b; simpl; split; congruence. Qed.

(** [run_for] has no failing path. *)
Lemma run_for_total (self : Process) (quantum cur_time : Q) :
  exists self', run_for self quantum cur_time
                = Ok (self', pymin quantum (remaining_time self)).
Proof. eexists. reflexivity. Qed.

End ProcessFacts.

(** C3: for a process with [remaining_time] r >= 0, a positive duration d and
    a current time t, [run_for d t] returns min(d, r), leaves
    [remaining_time] at r - min(d, r) and appends exactly the pair
    (t, t + min(d, r)) to the execution intervals; min(d, r) is d or r and
    is below both, so the new remaining time is not negative. *)
Theorem run_for_executes_min (self : process.Process) (d t : Q) :
  0 <= process.remaining_time self ->
  0 < d ->
  let r := process.remaining_time self in
  exists self',
    process.run_for self d t = Ok (self', pymin d r)
    /\ process.remaining_time self' = r - pymin d r
    /\ process.execution_times self'
       = process.execution_times self ++ [(t, t + pymin d r)]
    /\ (pymin d r = d \/ pymin d r = r)
    /\ pymin d r <= d /\ pymin d r <= r
    /\ 0 <= pymin d r
    /\ 0 <= process.remaining_time self'.
Proof.
  intros Hr Hd r. fold r in Hr.
  eexists. split; [reflexivity|]. simpl. fold r. clearbody r.
  pose proof (pymin_le_l d r). pose proof (pymin_le_r d r).
  assert (Hc : pymin d r = d \/ pymin d r = r).
  { destruct (pymin_cases d r) as [[_ E]|[_ E]]; auto. }
  repeat split; try assumption; try reflexivity.
  - destruct Hc as [-> | ->]; lra.
  - lra.
Qed.

Lemma run_for_executes_min_witness :
  exists self',
    process.run_for (process.mkProcess 0 1 process.READY 5 5 []) 2 3 = Ok (self', 2)
    /\ process.remaining_time self' = 5 - 2.
Proof.
  destruct (run_for_executes_min (process.mkProcess 0 1 process.READY 5 5 []) 2 3)
    as [self' (H1 & H2 & _)].
  - simpl. lra.
  - lra.
  - exists self'. split; [exact H1 | exact H2].
Defined.

(** C2, as the code has it: [run_for] validates nothing.  For a duration
    d <= 0 and a remaining time r >= 0 the call does not raise: it returns d
    itself, sets [remaining_time] to r - d and appends the pair (t, t + d). *)
Theorem run_for_nonpositive_not_rejected (self : process.Process) (d t : Q) :
  d <= 0 ->
  0 <= process.remaining_time self ->
  exists self',
    process.run_for self d t = Ok (self', d)
    /\ process.remaining_time self' = process.remaining_time self - d
    /\ process.execution_times self' = process.execution_times self ++ [(t, t + d)].
Proof.
  intros Hd Hr.
  assert (E : pymin d (process.remaining_time self) = d).
  { unfold pymin. replace (Qltb (process.remaining_time self) d) with false; [reflexivity|].
    symmetry. apply Qltb_ge. lra. }
  unfold process.run_for. rewrite E. eexists. repeat split.
Qed.

Lemma run_for_nonpositive_not_rejected_witness :
  exists self',
    process.run_for (process.mkProcess 0 1 process.READY 5 5 []) 0 3 = Ok (self', 0)
    /\ process.execution_times self' = [] ++ [(3, 3 + 0)].
Proof.
  destruct (run_for_nonpositive_not_rejected
              (process.mkProcess 0 1 process.READY 5 5 []) 0 3)
    as [self' (H1 & _ & H3)].
  - lra.
  - simpl. lra.
  - exists self'. split; [exact H1 | exact H3].
Defined.

(** C2 fails on the code: a request for the duration -2 on a process with
    5 units left is not refused; the call returns -2, the remaining time
    grows to 7 and an interval is appended. *)
Lemma run_for_nonpositive_counterexample :
  let self := process.mkProcess 0 1 process.READY 5 5 [] in
  -2 <= 0
  /\ (forall e, process.run_for self (-2) 3 <> Raise e)
  /\ exists self',
       process.run_for self (-2) 3 = Ok (self', -2)
       /\ process.remaining_time self' == 7
       /\ process.execution_times self' <> process.execution_times self.
Proof.
  split; [lra|]. split.
  - intros e. discriminate.
  - eexists. split; [reflexivity|]. simpl. split; [reflexivity | discriminate].
Qed.

(** C8, as the code has it: [departure_time] raises the [ValueError] of the
    source whenever the process is not [TERMINATED]; on a [TERMINATED]
    process that has an execution interval it returns the end of the last
    one; on a [TERMINATED] process without any interval the subscript raises
    [IndexError]. *)
Theorem departure_time_defined_once_terminated (self : process.Process) :
  (process.process_state self <> process.TERMINATED ->
   process.departure_time self
   = Raise (ValueError "Requested departure time of non-terminated process"))
  /\ (process.process_state self = process.TERMINATED ->
      forall l s e,
        process.execution_times self = l ++ [(s, e)] ->
        process.departure_time self = Ok e)
  /\ (process.process_state self = process.TERMINATED ->
      process.execution_times self = [] ->
      process.departure_time self = Raise (IndexError "list index out of range")).
Proof.
  unfold process.departure_time. split; [|split].
  - intros Hne. destruct (process.process_state self); try reflexivity.
    now elim Hne.
  - intros -> l s e Hl. simpl.
    rewrite (last_interval_snoc self l (s, e) Hl). reflexivity.
  - intros -> He. unfold process.last_interval. rewrite He. reflexivity.
Qed.

Lemma departure_time_defined_once_terminated_witness :
  process.departure_time (process.mkProcess 0 1 process.READY 5 3 [(1, 3)])
  = Raise (ValueError "Requested departure time of non-terminated process")
  /\ process.departure_time
       (process.mkProcess 0 1 process.TERMINATED 5 0 [(1, 3); (4, 7)])
     = Ok 7.
Proof.
  split.
  - apply (proj1 (departure_time_defined_once_terminated
                    (process.mkProcess 0 1 process.READY 5 3 [(1, 3)]))).
    simpl. discriminate.
  - apply (proj1 (proj2 (departure_time_defined_once_terminated
                           (process.mkProcess 0 1 process.TERMINATED 5 0
                              [(1, 3); (4, 7)])))
             eq_refl [(1, 3)] 4 7).
    reflexivity.
Defined.

(** C8 fails on the code: a process that is constructed and then set to
    [TERMINATED] through the setter, without having run, is [TERMINATED], and
    the query of its departure time returns no end time: it raises
    [IndexError]. *)
Lemma departure_time_without_interval :
  exists p0,
    process.init 0 0 5 = Ok p0
    /\ process.process_state (process.set_process_state p0 process.TERMINATED)
       = process.TERMINATED
    /\ process.departure_time (process.set_process_state p0 process.TERMINATED)
       = Raise (IndexError "list index out of range")
    /\ forall t,
         process.departure_time (process.set_process_state p0 process.TERMINATED)
         <> Ok t.
Proof.
  eexists. split; [reflexivity|]. split; [reflexivity|]. split; [reflexivity|].
  intros t. discriminate.
Qed.

(** A process set to [TERMINATED] before it ever ran has no last interval:
    the subscript raises [IndexError]. *)
Lemma departure_time_never_ran (self : process.Process) :
  process.process_state self = process.TERMINATED ->
  process.execution_times self = [] ->
  process.departure_time self = Raise (IndexError "list index out of range").
Proof.
  unfold process.departure_time, process.last_interval. intros -> ->. reflexivity.
Qed.

(** C10: [run_for] writes [remaining_time] and the execution intervals only;
    the state, the identifier, the arrival time and the service time of the
    process are those it had before the call. *)
Theorem run_for_frame (self : process.Process) (quantum cur_time : Q) :
  exists self' actually_run_for,
    process.run_for self quantum cur_time = Ok (self', actually_run_for)
    /\ process.process_state self' = process.process_state self
    /\ process.process_id self' = process.process_id self
    /\ process.arrival_time self' = process.arrival_time self
    /\ process.service_time self' = process.service_time self.
Proof.
  do 2 eexists. split; [reflexivity|]. simpl. repeat split.
Qed.

(** ** The events queue *)

Section QueueFacts.
Import event des.

Lemma le_time_trans : Relations_1.Transitive le_time.
Proof. intros a b c Hab Hbc. unfold le_time in *. lra. Qed.

Lemma scan_Sorted (a : list Event) :
  scan_non_decreasing a = true <-> Sorted le_time a.
Proof.
  induction a as [|x a IH].
  - simpl. split; [constructor | reflexivity].
  - destruct a as [|y a].
    + simpl. split; [repeat constructor | reflexivity].
    + change (scan_non_decreasing (x :: y :: a))
        with (Qleb (event_time x) (event_time y) && scan_non_decreasing (y :: a)).
      rewrite andb_true_iff, Qleb_le, IH. split.
      * intros [Hxy Hs]. constructor; [assumption | constructor; exact Hxy].
      * intros Hs. inversion Hs as [|? ? Hs' Hhd]; subst.
        inversion Hhd; subst. split; assumption.
Qed.

Lemma scan_StronglySorted (a : list Event) :
  scan_non_decreasing a = true <-> StronglySorted le_time a.
Proof.
  rewrite scan_Sorted. split.
  - apply Sorted_StronglySorted, le_time_trans.
  - apply StronglySorted_Sorted.
Qed.

(** In a sorted list, everything from position [i] on is no earlier than
    the element at [i], and everything up to [i] is no later. *)
Lemma sorted_from (a : list Event) (i : nat) (m : Event) :
  StronglySorted le_time a -> nth_error a i = Some m ->
  Forall (le_time m) (skipn i a).
Proof.
  intros Hs. revert i. induction Hs as [|h a Hs IH Hh]; intros i Hi.
  - destruct i; discriminate.
  - destruct i as [|i]; simpl in *.
    + injection Hi as ->. constructor; [unfold le_time; lra | assumption].
    + apply IH. assumption.
Qed.

Lemma sorted_upto (a : list Event) (i : nat) (m : Event) :
  StronglySorted le_time a -> nth_error a i = Some m ->
  Forall (fun e => le_time e m) (firstn (S i) a).
Proof.
  intros Hs. revert i. induction Hs as [|h a Hs IH Hh]; intros i Hi.
  - destruct i; discriminate.
  - destruct i as [|i].
    + simpl in *. injection Hi as ->. repeat constructor. unfold le_time; lra.
    + change (firstn (S (S i)) (h :: a)) with (h :: firstn (S i) a).
      simpl in Hi. constructor.
      * rewrite Forall_forall in Hh. apply Hh. eapply nth_error_In; eassumption.
      * apply IH. assumption.
Qed.

(** The loop invariant of [bisect_right] on a sorted list: the events
    before [lo] are not later than [x], the events from [hi] on are
    strictly later. *)
Lemma bisect_right_splits (a : list Event) (x : Event) (lo hi : nat) :
  StronglySorted le_time a ->
  (lo <= hi <= length a)%nat ->
  Forall (fun e => event_time e <= event_time x) (firstn lo a) ->
  Forall (fun e => event_time x < event_time e) (skipn hi a) ->
  Forall (fun e => event_time e <= event_time x) (firstn (bisect_right a x lo hi) a)
  /\ Forall (fun e => event_time x < event_time e) (skipn (bisect_right a x lo hi) a).
Proof.
  intros Hs. funelim (bisect_right a x lo hi); intros Hb Hlo Hhi.
  all: pose proof (Nat.div_mod_eq (lo + hi) 2) as Hdiv.
  all: pose proof (Nat.mod_upper_bound (lo + hi) 2 ltac:(lia)) as Hmod.
  - (* lo >= hi: the loop is over *)
    assert (lo = hi) by lia. subst. split; assumption.
  - (* lo < hi and a[mid] missing: out of reach *)
    exfalso.
    match goal with E : nth_error _ _ = None |- _ => apply nth_error_None in E end.
    lia.
  - (* x < a[mid]: hi = mid *)
    match goal with IH : StronglySorted _ _ -> _ |- _ =>
      apply IH; [assumption | lia | assumption |] end.
    match goal with E : event.lt _ _ = true |- _ => apply Qltb_lt in E end.
    eapply Forall_impl; [| eapply sorted_from; eassumption].
    intros e He. unfold le_time in He. simpl. lra.
  - (* not x < a[mid]: lo = mid + 1 *)
    match goal with IH : StronglySorted _ _ -> _ |- _ =>
      apply IH; [assumption | lia | | assumption] end.
    match goal with E : event.lt _ _ = false |- _ => apply Qltb_ge in E end.
    eapply Forall_impl; [| eapply sorted_upto; eassumption].
    intros e He. unfold le_time in He. simpl. lra.
Qed.

Lemma Forall_insert (P : Event -> Prop) (a : list Event) (i : nat) (x : Event) :
  Forall P a -> P x -> Forall P (insert a i x).
Proof.
  intros Ha Hx. unfold insert. apply Forall_app. split.
  - rewrite <- (firstn_skipn i a) in Ha. apply Forall_app in Ha. tauto.
  - constructor; [assumption|].
    rewrite <- (firstn_skipn i a) in Ha. apply Forall_app in Ha. tauto.
Qed.

Lemma insert_sorted (a : list Event) (i : nat) (x : Event) :
  StronglySorted le_time a ->
  Forall (fun e => event_time e <= event_time x) (firstn i a) ->
  Forall (fun e => event_time x < event_time e) (skipn i a) ->
  StronglySorted le_time (insert a i x).
Proof.
  intros Hs. revert i. induction Hs as [|h a Hs IH Hh]; intros i Hlo Hhi.
  - unfold insert. rewrite firstn_nil, skipn_nil. repeat constructor.
  - destruct i as [|i].
    + unfold insert. simpl in *. constructor.
      * constructor; assumption.
      * eapply Forall_impl; [| exact Hhi]. intros e He. unfold le_time.
        cbv beta in He. lra.
    + change (insert (h :: a) (S i) x) with (h :: insert a i x).
      simpl in Hlo, Hhi. inversion Hlo; subst. constructor.
      * apply IH; assumption.
      * apply Forall_insert; [assumption |]. unfold le_time.
        match goal with E : event_time h <= _ |- _ => exact E end.
Qed.

(** [insort] keeps a sorted queue sorted. *)
Lemma insort_sorted (a : list Event) (x : Event) :
  StronglySorted le_time a -> StronglySorted le_time (insort a x).
Proof.
  intros Hs. unfold insort.
  destruct (bisect_right_splits a x 0 (length a) Hs) as [Hlo Hhi].
  - lia.
  - constructor.
  - rewrite skipn_all. constructor.
  - apply insert_sorted; assumption.
Qed.

Lemma apply_op_sorted (q : list Event) (op : queue_op) :
  StronglySorted le_time q -> StronglySorted le_time (apply_op q op).
Proof.
  intros Hs. destruct op as [e|]; simpl.
  - apply insort_sorted. assumption.
  - destruct q as [|x q]; simpl; [assumption|]. inversion Hs; assumption.
Qed.

Lemma queue_history_sorted (q : list Event) (ops : list queue_op) :
  StronglySorted le_time q ->
  Forall (fun q' => scan_non_decreasing q' = true) (queue_history q ops).
Proof.
  revert q. induction ops as [|op ops IH]; intros q Hs; simpl.
  - constructor.
  - pose proof (apply_op_sorted q op Hs) as Hs'. constructor.
    + apply scan_StronglySorted. assumption.
    + apply IH. assumption.
Qed.

End QueueFacts.

(** C4: for every sequence of [insort] and [popleft] operations on the
    events queue, which starts empty, a scan of the queue after each
    operation meets the event times in non-decreasing order. *)
Theorem queue_scan_non_decreasing (ops : list des.queue_op) :
  Forall (fun q => des.scan_non_decreasing q = true) (des.queue_history [] ops).
Proof.
  apply queue_history_sorted. constructor.
Qed.

(** [insort] places an event behind the queued events of the same time. *)
Example insort_after_equal_times :
  des.insort
    [event.mkEvent event.PROC_ARRIVES 1 0; event.mkEvent event.PROC_ARRIVES 2 1;
     event.mkEvent event.PROC_ARRIVES 4 2]
    (event.mkEvent event.PROC_CPU_REQ 2 0)
  = [event.mkEvent event.PROC_ARRIVES 1 0; event.mkEvent event.PROC_ARRIVES 2 1;
     event.mkEvent event.PROC_CPU_REQ 2 0; event.mkEvent event.PROC_ARRIVES 4 2].
Proof. reflexivity. Qed.

(** ** The simulator *)

Section SimulatorFacts.
Import process event des.
Context {PS : Type}.
Variable policy : Policy PS.
Variable level : logging.Level.
Local Abbreviation Sim := (SchedulerDES PS).

Lemma bind_Ok {A B : Type} (m : result A) (k : A -> result B) (b : B) :
  bind m k = Ok b -> exists a, m = Ok a /\ k a = Ok b.
Proof. destruct m as [a|e]; simpl; [eauto | discriminate]. Qed.

(** *** Workload generation *)

Lemma generate_loop_frame (R : Random) (n : nat) :
  forall (i : Z) (t : Q) (self : Sim) (g : rng R) (self' : Sim) (g' : rng R),
    generate_loop R n i t self g = Ok (self', g') ->
    context_switch_time self' = context_switch_time self
    /\ process_on_cpu self' = process_on_cpu self.
Proof.
  induction n as [|n IH]; intros i t self g self' g' H.
  - simpl in H. injection H as <- _. split; reflexivity.
  - cbn [generate_loop] in H.
    apply bind_Ok in H as ([a g1] & _ & H).
    apply bind_Ok in H as ([s g2] & _ & H).
    apply bind_Ok in H as (new_process & _ & H).
    apply bind_Ok in H as (new_event & _ & H).
    apply IH in H. exact H.
Qed.

Lemma generate_and_init_frame (R : Random) (self : Sim) (s : option Z) (g : rng R)
    (self' : Sim) (g' : rng R) :
  generate_and_init R self s g = Ok (self', g') ->
  context_switch_time self' = context_switch_time self
  /\ process_on_cpu self' = None.
Proof.
  unfold generate_and_init. intros H. apply generate_loop_frame in H. exact H.
Qed.

(** *** One iteration *)

Lemma time_advance (self : Sim) (cur : Event) (rest : list Event) :
  time (advance self cur rest)
  = if Qltb (time self) (event_time cur) then event_time cur else time self.
Proof.
  unfold advance. simpl. destruct (Qltb (time self) (event_time cur)); reflexivity.
Qed.

Lemma advance_frame (self : Sim) (cur : Event) (rest : list Event) :
  context_switch_time (advance self cur rest) = context_switch_time self
  /\ process_on_cpu (advance self cur rest) = process_on_cpu self
  /\ events_queue (advance self cur rest) = rest.
Proof.
  unfold advance. simpl.
  destruct (Qltb (time self) (event_time cur)); repeat split.
Qed.

Lemma advance_not_backward (self : Sim) (cur : Event) (rest : list Event) :
  time self <= time (advance self cur rest).
Proof.
  rewrite time_advance. destruct (Qltb (time self) (event_time cur)) eqn:E.
  - apply Qltb_lt in E. lra.
  - lra.
Qed.

Lemma select_Ok (self : Sim) (cur : Event) (s : Sim) (p : nat) :
  select policy self cur = Ok (s, p) ->
  exists h pr,
    scheduler_func policy self cur = Ok h
    /\ s = commit self h
    /\ hook_value h = Some p
    /\ nth_error (processes s) p = Some pr
    /\ process_state pr = READY.
Proof.
  unfold select. intros H. apply bind_Ok in H as (h & Hh & H).
  destruct (hook_value h) as [i|] eqn:Hv; [|discriminate].
  destruct (nth_error (processes (commit self h)) i) as [pr|] eqn:Hn; [|discriminate].
  apply bind_Ok in H as (u & _ & H).
  destruct (ProcessStates_eqb (process_state pr) READY) eqn:Hst; simpl in H.
  - injection H as <- <-.
    exists h, pr. repeat split; try assumption.
    apply ProcessStates_eqb_eq. assumption.
  - destruct (process.__str__ pr); discriminate.
Qed.

Lemma iteration_Ok (self : Sim) (cur : Event) (rest : list Event)
    (self' : Sim) (clk : Q) (ev : Event) :
  iteration policy level self cur rest = Ok (self', (clk, ev)) ->
  exists s p h,
    select policy (advance self cur rest) cur = Ok (s, p)
    /\ dispatcher_func policy (switch s p) p = Ok h
    /\ clk = time (switch s p)
    /\ ev = hook_value h
    /\ self' = conclude (commit (switch s p) h) ev.
Proof.
  unfold iteration. intros H.
  apply bind_Ok in H as (u & _ & H).
  apply bind_Ok in H as ([s p] & Hs & H).
  apply bind_Ok in H as ([s' ev'] & Hd & H).
  unfold dispatch in Hd. apply bind_Ok in Hd as (h & Hh & Hd).
  injection Hd as <- <-. injection H as <- <- <-.
  exists s, p, h. repeat split; assumption.
Qed.

Lemma time_switch (s : Sim) (p : nat) :
  time (switch s p)
  = if differs p (process_on_cpu s) then time s + context_switch_time s else time s.
Proof. unfold switch. destruct (differs p (process_on_cpu s)); reflexivity. Qed.

Lemma switch_frame (s : Sim) (p : nat) :
  context_switch_time (switch s p) = context_switch_time s
  /\ process_on_cpu (switch s p) = Some p.
Proof.
  unfold switch, differs. destruct (process_on_cpu s) as [q|] eqn:Hq; simpl.
  - destruct (Nat.eqb p q) eqn:E; simpl; split; try reflexivity.
    apply Nat.eqb_eq in E. congruence.
  - split; reflexivity.
Qed.

Lemma conclude_frame (s : Sim) (ev : Event) :
  context_switch_time (conclude s ev) = context_switch_time s
  /\ process_on_cpu (conclude s ev) = process_on_cpu s
  /\ time (conclude s ev) = event_time ev.
Proof.
  unfold conclude.
  destruct (negb (EventTypes_eqb (event_type ev) PROC_CPU_DONE)); repeat split.
Qed.

Lemma differs_spec (p : nat) (on_cpu : option nat) :
  differs p on_cpu = true <-> on_cpu <> Some p.
Proof.
  unfold differs. destruct on_cpu as [q|].
  - rewrite negb_true_iff, Nat.eqb_neq. split.
    + intros Hne Heq. injection Heq as ->. now apply Hne.
    + intros Hne Heq. apply Hne. now subst.
  - split; [discriminate | reflexivity].
Qed.

(** What an iteration that does not raise did to the clock and to
    [process_on_cpu]. *)
Lemma iteration_clock (self : Sim) (cur : Event) (rest : list Event)
    (self' : Sim) (clk : Q) (ev : Event) :
  iteration policy level self cur rest = Ok (self', (clk, ev)) ->
  exists p,
    process_on_cpu self' = Some p
    /\ clk = (if differs p (process_on_cpu self)
              then time (advance self cur rest) + context_switch_time self
              else time (advance self cur rest))
    /\ time self' = event_time ev
    /\ context_switch_time self' = context_switch_time self.
Proof.
  intros H. apply iteration_Ok in H as (s & p & h & Hs & Hd & -> & -> & ->).
  apply select_Ok in Hs as (h0 & pr & _ & -> & _).
  destruct (advance_frame self cur rest) as (Hcs & Hcpu & _).
  pose proof (fun A s (x : hook PS A) => eq_refl : time (commit s x) = time s) as Ht.
  pose proof (fun A s (x : hook PS A) =>
                eq_refl : context_switch_time (commit s x) = context_switch_time s) as Hc.
  pose proof (fun A s (x : hook PS A) =>
                eq_refl : process_on_cpu (commit s x) = process_on_cpu s) as Hp.
  destruct (conclude_frame (commit (switch (commit (advance self cur rest) h0) p) h)
              (hook_value h)) as (C1 & C2 & C3).
  destruct (switch_frame (commit (advance self cur rest) h0) p) as (S1 & S2).
  exists p. rewrite C1, C2, C3, time_switch.
  rewrite ?Hc, ?Hp, ?Ht, ?S1, ?S2, ?Hc, ?Hp, ?Ht, ?Hcs, ?Hcpu.
  repeat split.
Qed.

End SimulatorFacts.

Section RunFacts.
Import process event des.
Context {PS : Type}.
Variable policy : Policy PS.
Variable level : logging.Level.
Local Abbreviation Sim := (SchedulerDES PS).

Lemma run_loop_empty (fuel : nat) (self : Sim) :
  events_queue self = [] -> run_loop policy level fuel self = ([], Finished self).
Proof. intros H. destruct fuel; simpl; rewrite H; reflexivity. Qed.

(** An exception leaves the loop only out of an iteration. *)
Lemma run_loop_aborted (fuel : nat) :
  forall (self : Sim) (steps : list Step) (e : exn),
    run_loop policy level fuel self = (steps, Aborted e) ->
    exists s cur rest,
      events_queue s = cur :: rest /\ iteration policy level s cur rest = Raise e.
Proof.
  induction fuel as [|fuel IH]; intros self steps e H; simpl in H;
    destruct (events_queue self) as [|cur rest] eqn:Hq; try discriminate.
  destruct (iteration policy level self cur rest) as [[self' d]|e'] eqn:Hi.
  - destruct (run_loop policy level fuel self') as [steps' o] eqn:Hr.
    injection H as _ ->. eapply IH. eassumption.
  - injection H as _ <-. exists self, cur, rest. split; assumption.
Qed.

(** The clocks seen at the start of the iterations, when every event of
    the dispatcher is timely. *)
Lemma run_loop_clocks (fuel : nat) :
  forall self : Sim,
    0 <= context_switch_time self ->
    Forall timely (fst (run_loop policy level fuel self)) ->
    StronglySorted Qle (map clock_at_start (fst (run_loop policy level fuel self)))
    /\ Forall (fun c => time self <= c)
         (map clock_at_start (fst (run_loop policy level fuel self))).
Proof.
  induction fuel as [|fuel IH]; intros self Hcs Ht; simpl in *;
    destruct (events_queue self) as [|cur rest] eqn:Hq; simpl;
    try (split; constructor).
  destruct (iteration policy level self cur rest) as [[self' [clk ev]]|e] eqn:Hi.
  - destruct (run_loop policy level fuel self') as [steps o] eqn:Hr. simpl in *.
    inversion Ht as [|st sts Hhead Htail]; subst. unfold timely in Hhead. simpl in Hhead.
    apply iteration_clock in Hi as (p & _ & Hclk & Htime & Hcs').
    pose proof (advance_not_backward self cur rest) as Hadv.
    assert (Hle : time self <= time self').
    { rewrite Htime. destruct (differs p (process_on_cpu self)); subst clk; lra. }
    destruct (IH self') as [Hs Hall].
    { rewrite Hcs'. assumption. }
    { rewrite Hr. assumption. }
    rewrite Hr in Hs, Hall. simpl in Hs, Hall.
    assert (Hall' : Forall (fun c => time self <= c) (map clock_at_start steps)).
    { eapply Forall_impl; [| exact Hall]. intros c Hc. cbv beta in Hc. lra. }
    split.
    + constructor; assumption.
    + constructor; [lra | assumption].
  - simpl. split.
    + repeat constructor.
    + constructor; [lra | constructor].
Qed.

Lemma same_configuration_reset (a b : Sim) :
  same_configuration a b -> reset a = reset b.
Proof.
  destruct a, b. unfold same_configuration, reset. simpl.
  intros (-> & -> & -> & -> & -> & ->). reflexivity.
Qed.

(** [run] is the loop on the generated workload, between the two logs of
    the process table. *)
Lemma run_cases (R : Random) (fuel : nat) (self : Sim) (s : option Z) (g : rng R) :
  (fst (run policy level R fuel self s g) = []
   /\ exists e, snd (run policy level R fuel self s g) = Aborted e)
  \/ exists self1 g1,
       generate_and_init R self s g = Ok (self1, g1)
       /\ log_processes level logging.DEBUG self1 = Ok tt
       /\ fst (run policy level R fuel self s g) = fst (run_loop policy level fuel self1)
       /\ (snd (run policy level R fuel self s g) = snd (run_loop policy level fuel self1)
           \/ exists self' e,
                snd (run_loop policy level fuel self1) = Finished self'
                /\ log_processes level logging.DEBUG self' = Raise e
                /\ snd (run policy level R fuel self s g) = Aborted e).
Proof.
  unfold run.
  destruct (generate_and_init R self s g) as [[self1 g1]|e];
    [|left; split; [reflexivity | eexists; reflexivity]].
  destruct (log_processes level logging.DEBUG self1) as [[]|e] eqn:Hl;
    [|left; split; [reflexivity | eexists; reflexivity]].
  right. exists self1, g1. split; [reflexivity|]. split; [exact Hl|].
  destruct (run_loop policy level fuel self1) as [steps o].
  destruct o as [self'|e|self']; simpl; try (split; [reflexivity | left; reflexivity]).
  destruct (log_processes level logging.DEBUG self') as [u|e] eqn:Hl'; simpl.
  - split; [reflexivity | left; reflexivity].
  - split; [reflexivity|]. right. exists self', e. auto.
Qed.

End RunFacts.

(** C1, as the code has it: when the events queue is empty the loop of
    [run] ends normally, whatever the states of the processes, the policy
    and the level of the logger; the queue is tested by the loop condition
    alone and the states of the processes are not examined. *)
Theorem run_loop_ends_on_empty_queue {PS : Type} (policy : des.Policy PS)
    (level : logging.Level) (fuel : nat) (self : des.SchedulerDES PS) :
  des.events_queue self = [] ->
  des.run_loop policy level fuel self = ([], des.Finished self).
Proof.
  intros Hq. destruct fuel; simpl; rewrite Hq; reflexivity.
Qed.

Lemma run_loop_ends_on_empty_queue_witness :
  des.run_loop fixtures.fcfs logging.WARNING 10 fixtures.idle_with_ready_process
  = ([], des.Finished fixtures.idle_with_ready_process)
  /\ exists p, In p (des.processes fixtures.idle_with_ready_process)
               /\ process.process_state p = process.READY.
Proof.
  split.
  - apply (run_loop_ends_on_empty_queue fixtures.fcfs logging.WARNING 10
             fixtures.idle_with_ready_process eq_refl).
  - eexists. split; [left; reflexivity | reflexivity].
Defined.

(** C1 fails on the code: with a dispatcher that never marks a process
    [TERMINATED], the queue runs empty after three iterations while all three
    processes are [READY], and [run] finishes without raising. *)
Lemma run_finishes_with_unterminated_processes :
  des.init 3 1 1 0 des.Inf tt = Ok (fixtures.simulator 0)
  /\ exists steps final,
       des.run fixtures.fcfs_no_termination logging.DEBUG
         (fixtures.replay fixtures.tape) 10 (fixtures.simulator 0) (Some 1%Z) []
       = (steps, des.Finished final)
       /\ des.events_queue final = []
       /\ map process.process_state (des.processes final)
          = [process.READY; process.READY; process.READY].
Proof.
  split; [reflexivity|]. do 2 eexists. split; [vm_compute; reflexivity|].
  split; reflexivity.
Qed.

(** C5, as the code has it: popping an event never moves the clock
    backward, and the context switch adds a time that the constructor
    checked to be non-negative; the time of the dispatcher's event is
    adopted as it is.  Hence the clock seen at the start of each iteration
    of a run is non-decreasing when every event the dispatcher returned is
    not earlier than the clock at which the dispatcher was called. *)
Theorem clock_non_decreasing {PS : Type} (policy : des.Policy PS)
    (level : logging.Level) (R : des.Random)
    (fuel : nat) (self : des.SchedulerDES PS) (s : option Z) (g : des.rng R) :
  0 <= des.context_switch_time self ->
  Forall des.timely (fst (des.run policy level R fuel self s g)) ->
  StronglySorted Qle
    (map des.clock_at_start (fst (des.run policy level R fuel self s g)))
  /\ forall (self' : des.SchedulerDES PS) cur rest,
       des.time self' <= des.time (des.advance self' cur rest).
Proof.
  intros Hcs Ht. split.
  - destruct (run_cases policy level R fuel self s g)
      as [[E _]|(self1 & g1 & Hg & _ & E & _)]; rewrite E in *.
    + constructor.
    + apply generate_and_init_frame in Hg as [Hcs1 _].
      apply run_loop_clocks; [rewrite Hcs1|]; assumption.
  - intros self' cur rest. apply advance_not_backward.
Qed.

Lemma clock_non_decreasing_witness :
  StronglySorted Qle
    (map des.clock_at_start
       (fst (des.run fixtures.fcfs logging.WARNING
               (fixtures.replay fixtures.tape) 10 (fixtures.simulator 2) (Some 1%Z) []))).
Proof.
  apply (clock_non_decreasing fixtures.fcfs logging.WARNING
           (fixtures.replay fixtures.tape) 10 (fixtures.simulator 2) (Some 1%Z) []).
  - simpl. lra.
  - vm_compute. repeat constructor; discriminate.
Defined.

(** C5 fails on the code: with a dispatcher that stamps its event with the
    time used, the clock is 5 at the start of the second iteration and 1 at
    the start of the third. *)
Lemma clock_moves_backward :
  des.init 3 1 1 0 des.Inf tt = Ok (fixtures.simulator 0)
  /\ map des.clock_at_start
       (fst (des.run fixtures.fcfs_stamps_duration logging.WARNING
               (fixtures.replay fixtures.tape) 10 (fixtures.simulator 0) (Some 1%Z) []))
     = [0; 5; 1]
  /\ ~ StronglySorted Qle
        (map des.clock_at_start
           (fst (des.run fixtures.fcfs_stamps_duration logging.WARNING
                   (fixtures.replay fixtures.tape) 10 (fixtures.simulator 0) (Some 1%Z) []))).
Proof.
  assert (E : map des.clock_at_start
                (fst (des.run fixtures.fcfs_stamps_duration logging.WARNING
                        (fixtures.replay fixtures.tape) 10
                        (fixtures.simulator 0) (Some 1%Z) []))
              = [0; 5; 1]) by (vm_compute; reflexivity).
  split; [reflexivity|]. split; [exact E|]. rewrite E.
  intros H. inversion H as [|? ? Htail _]; subst.
  inversion Htail as [|? ? _ Hall]; subst.
  inversion Hall as [|? ? Hle _]; subst.
  apply Qle_bool_iff in Hle. discriminate.
Qed.

(** C6: in an iteration the dispatcher is called at the clock reached after
    the pop, plus [context_switch_time] exactly when the selected process is
    not the one recorded in [process_on_cpu]; the selected process is then
    recorded.  [generate_and_init] leaves [process_on_cpu] at [None], so the
    first assignment of a run pays the switch. *)
Theorem context_switch_cost {PS : Type} (policy : des.Policy PS)
    (level : logging.Level)
    (self : des.SchedulerDES PS) (cur : event.Event) (rest : list event.Event)
    (self' : des.SchedulerDES PS) (clk : Q) (ev : event.Event) :
  des.iteration policy level self cur rest = Ok (self', (clk, ev)) ->
  exists p,
    (exists s, des.select policy (des.advance self cur rest) cur = Ok (s, p))
    /\ des.process_on_cpu self' = Some p
    /\ (des.process_on_cpu self <> Some p ->
        clk = des.time (des.advance self cur rest) + des.context_switch_time self)
    /\ (des.process_on_cpu self = Some p ->
        clk = des.time (des.advance self cur rest))
    /\ (des.process_on_cpu self = None ->
        clk = des.time (des.advance self cur rest) + des.context_switch_time self)
    /\ forall (R : des.Random) self0 s g g',
         des.generate_and_init R self0 s g = Ok (self, g') ->
         clk = des.time (des.advance self cur rest) + des.context_switch_time self.
Proof.
  intros H. pose proof (iteration_clock policy level _ _ _ _ _ _ H) as (p & Hcpu & Hclk & _).
  apply iteration_Ok in H as (s & p' & h & Hs & _ & Hclk' & _ & ->).
  assert (p' = p) as ->.
  { destruct (conclude_frame (des.commit (des.switch s p') h) ev)
      as (_ & C2 & _).
    rewrite C2 in Hcpu. change (des.process_on_cpu (des.switch s p') = Some p) in Hcpu.
    destruct (switch_frame s p') as [_ S2]. congruence. }
  exists p. split; [exists s; assumption|]. split; [assumption|].
  assert (Hne : des.process_on_cpu self <> Some p ->
                clk = des.time (des.advance self cur rest) + des.context_switch_time self).
  { intros Hd. apply differs_spec in Hd. rewrite Hd in Hclk. assumption. }
  split; [exact Hne|]. split; [|split].
  - intros He. rewrite He in Hclk. unfold des.differs in Hclk.
    rewrite Nat.eqb_refl in Hclk. assumption.
  - intros He. apply Hne. rewrite He. discriminate.
  - intros R self0 s0 g g' Hg. apply generate_and_init_frame in Hg as [_ Hn].
    apply Hne. rewrite Hn. discriminate.
Qed.

Lemma context_switch_cost_witness :
  exists self' ev,
    des.iteration fixtures.fcfs logging.WARNING (fixtures.generated 2)
      (event.mkEvent event.PROC_ARRIVES 1 0)
      [event.mkEvent event.PROC_ARRIVES 2 1; event.mkEvent event.PROC_ARRIVES 3 2]
    = Ok (self', (1 + 2, ev))
    /\ des.process_on_cpu self' = Some 0%nat.
Proof.
  destruct (des.iteration fixtures.fcfs logging.WARNING (fixtures.generated 2)
              (event.mkEvent event.PROC_ARRIVES 1 0)
              [event.mkEvent event.PROC_ARRIVES 2 1; event.mkEvent event.PROC_ARRIVES 3 2])
    as [[self' [clk ev]]|e] eqn:E; [|vm_compute in E; discriminate E].
  destruct (context_switch_cost _ _ _ _ _ _ _ _ E) as (p & [s Hs] & Hcpu & _ & _ & Hfirst & _).
  assert (Hp : p = 0%nat).
  { vm_compute in Hs. injection Hs as _ Hp. symmetry. exact Hp. }
  exists self', ev. rewrite (Hfirst eq_refl). subst p. split; [reflexivity | exact Hcpu].
Defined.

(** C7, as the code has it: the constructor accepts a mean burst time of 0
    next to valid values of the other arguments, and [generate_and_init]
    then raises for every seed: each service time drawn is 0, and [Process]
    refuses a service time that is not positive. *)
Theorem zero_mean_burst_generation_raises {PS : Type} (R : des.Random)
    (num_processes : Z) (arrivals_per_time_unit avg_cpu_burst_time : Q)
    (context_switch_time : Q) (quantum : des.num) (ps : PS) :
  (0 < num_processes)%Z ->
  0 < arrivals_per_time_unit ->
  avg_cpu_burst_time == 0 ->
  0 <= context_switch_time ->
  des.num_pos quantum = true ->
  exists self,
    des.init num_processes arrivals_per_time_unit avg_cpu_burst_time
      context_switch_time quantum ps = Ok self
    /\ forall s g,
         des.generate_and_init R self s g
         = Raise (ValueError "Value {} not a positive (> 0) number.").
Proof.
  intros Hn Harr Havg Hcs Hq. eexists. split.
  - unfold des.init.
    replace (0 <? num_processes)%Z with true by (symmetry; apply Z.ltb_lt; assumption).
    replace (Qltb 0 arrivals_per_time_unit) with true
      by (symmetry; apply Qltb_lt; assumption).
    replace (Qleb 0 avg_cpu_burst_time) with true
      by (symmetry; apply Qleb_le; rewrite Havg; apply Qle_refl).
    replace (Qleb 0 context_switch_time) with true
      by (symmetry; apply Qleb_le; assumption).
    rewrite Hq. simpl. reflexivity.
  - intros s g. unfold des.generate_and_init.
    change (des.num_processes (des.reset _)) with num_processes.
    destruct (Z.to_nat num_processes) as [|n] eqn:En; [lia|].
    generalize (des.seed R s g). intros g0.
    cbn [des.generate_loop].
    change (des._arrivals_per_time_unit (des.reset _)) with arrivals_per_time_unit.
    change (des._avg_cpu_burst_time (des.reset _)) with avg_cpu_burst_time.
    unfold des.exponential at 1.
    replace (Qltb (1 / arrivals_per_time_unit) 0) with false.
    2:{ symmetry. apply Qltb_ge. apply Qlt_le_weak.
        unfold Qdiv. rewrite Qmult_1_l. apply Qinv_lt_0_compat. assumption. }
    destruct (des.standard_exponential R g0) as [x g1]. cbn [bind].
    unfold des.exponential.
    replace (Qltb avg_cpu_burst_time 0) with false
      by (symmetry; apply Qltb_ge; rewrite Havg; apply Qle_refl).
    destruct (des.standard_exponential R g1) as [y g2]. cbn [bind].
    unfold process.init. simpl (negb (0 <=? 0)%Z).
    destruct (Qleb 0 (0 + 1 / arrivals_per_time_unit * x)); simpl; [|reflexivity].
    replace (Qltb 0 (avg_cpu_burst_time * y)) with false; [reflexivity|].
    symmetry. apply Qltb_ge. rewrite Havg. rewrite Qmult_0_l. apply Qle_refl.
Qed.

Lemma zero_mean_burst_generation_raises_witness :
  exists self,
    des.init 3 1 0 0 des.Inf tt = Ok self
    /\ des.generate_and_init (fixtures.replay fixtures.tape) self (Some 1%Z) []
       = Raise (ValueError "Value {} not a positive (> 0) number.").
Proof.
  destruct (zero_mean_burst_generation_raises (fixtures.replay fixtures.tape)
              3 1 0 0 des.Inf tt) as [self [Hi Hg]].
  - reflexivity.
  - reflexivity.
  - reflexivity.
  - discriminate.
  - reflexivity.
  - exists self. split; [exact Hi | apply Hg].
Defined.

(** C7 fails on the code: with a mean burst time of 0 the constructor
    succeeds, and the generation of the workload raises instead of producing
    three processes. *)
Lemma zero_mean_burst_counterexample :
  exists self,
    des.init 3 1 0 0 des.Inf tt = Ok self
    /\ is_ok (des.generate_and_init (fixtures.replay fixtures.tape) self (Some 1%Z) [])
       = false.
Proof. eexists. split; reflexivity. Qed.

(** C9: [run] with a given seed starts by resetting the simulator and by
    seeding the generator, and draws nothing afterwards.  Two invocations
    on simulators of the same configuration and subclass attributes, under
    the same policy and seed, therefore yield the same steps, the same outcome
    and the same statistics per process, whatever the simulators and the
    generator held before. *)
Theorem run_deterministic {PS : Type} (policy : des.Policy PS)
    (level : logging.Level) (R : des.Random)
    (fuel : nat) (self1 self2 : des.SchedulerDES PS) (n : Z) (g1 g2 : des.rng R) :
  des.same_configuration self1 self2 ->
  des.run policy level R fuel self1 (Some n) g1 = des.run policy level R fuel self2 (Some n) g2
  /\ map des.cur_event (fst (des.run policy level R fuel self1 (Some n) g1))
     = map des.cur_event (fst (des.run policy level R fuel self2 (Some n) g2))
  /\ map des.dispatched (fst (des.run policy level R fuel self1 (Some n) g1))
     = map des.dispatched (fst (des.run policy level R fuel self2 (Some n) g2))
  /\ des.final_statistics (snd (des.run policy level R fuel self1 (Some n) g1))
     = des.final_statistics (snd (des.run policy level R fuel self2 (Some n) g2)).
Proof.
  intros Hc.
  assert (E : des.run policy level R fuel self1 (Some n) g1
              = des.run policy level R fuel self2 (Some n) g2).
  { unfold des.run, des.generate_and_init.
    rewrite (same_configuration_reset self1 self2 Hc). reflexivity. }
  rewrite E. repeat split.
Qed.

Lemma run_deterministic_witness :
  des.run fixtures.fcfs logging.WARNING
    (fixtures.replay fixtures.tape) 10 (fixtures.simulator 0) (Some 1%Z) []
  = des.run fixtures.fcfs logging.WARNING
      (fixtures.replay fixtures.tape) 10 fixtures.used_simulator (Some 1%Z) [7; 7].
Proof.
  apply (run_deterministic fixtures.fcfs logging.WARNING (fixtures.replay fixtures.tape) 10
           (fixtures.simulator 0) fixtures.used_simulator 1 [] [7; 7]).
  unfold des.same_configuration. repeat split.
Defined.

(** The first of the scenarios of the policies of [schedulers.py]: under
    [FCFS] the run aborts in its first iteration, in the dispatcher; under
    the inherited hooks it aborts at the first check of the loop. *)
Example schedulers_abort_in_first_iteration :
  snd (des.run schedulers.FCFS logging.WARNING
         (fixtures.replay fixtures.tape) 10 (fixtures.simulator 0) (Some 1%Z) [])
  = des.Aborted
      (AttributeError "'Process' object has no attribute '_FCFS__process_state'")
  /\ snd (des.run schedulers.SJF logging.WARNING
            (fixtures.replay fixtures.tape) 10 (fixtures.simulator 0) (Some 1%Z) [])
     = des.Aborted (ValueError "Scheduler didn't select any process to run!!!").
Proof. split; vm_compute; reflexivity. Qed.

(** * Further properties of the sources *)

(** ** process.py *)

Section MoreProcessFacts.
Import process notions.

(** One call of [run_for]: what is left afterwards. *)
Lemma run_for_step (p : Process) (q t : Q) (p' : Process) (u : Q) :
  run_for p q t = Ok (p', u) ->
  0 <= remaining_time p'
  /\ (0 <= q -> 0 <= remaining_time p -> remaining_time p' <= remaining_time p).
Proof.
  unfold run_for. intros H. injection H as <- <-. simpl.
  pose proof (pymin_le_r q (remaining_time p)) as Hr.
  split; [lra|]. intros Hq Hp.
  destruct (pymin_cases q (remaining_time p)) as [[_ ->]|[_ ->]]; lra.
Qed.

Lemma run_for_each_spec (calls : list (Q * Q)) :
  forall (p p' : Process) (useds : list Q),
    run_for_each p calls = Ok (p', useds) ->
    (0 <= remaining_time p -> 0 <= remaining_time p')
    /\ (Forall (fun c => 0 <= fst c) calls -> 0 <= remaining_time p ->
        remaining_time p' <= remaining_time p).
Proof.
  induction calls as [|[q t] calls IH]; intros p p' useds H.
  - simpl in H. injection H as <- <-. split; [auto | intros; lra].
  - cbn [run_for_each] in H.
    apply bind_Ok in H as ([p1 u] & H1 & H).
    apply bind_Ok in H as ([p2 us] & H2 & H).
    injection H as <- <-.
    apply run_for_step in H1 as (A1 & A2).
    apply IH in H2 as (B1 & B2).
    split.
    + intros _. apply B1, A1.
    + intros Hall Hp. apply Forall_cons_iff in Hall as [Hq Hall']. simpl in Hq.
      specialize (B2 Hall' A1). specialize (A2 Hq Hp). lra.
Qed.

(** The loop of [waiting_time] over a list of intervals [l], from an
    accumulator [(w, prev)]. *)
Lemma waiting_loop (l : list (Q * Q)) :
  forall w prev : Q,
    0 <= w -> chronological prev l ->
    0 <= fst (fold_left
                (fun (acc : Q * Q) (t : Q * Q) => (fst acc + (fst t - snd acc), snd t))
                l (w, prev)).
Proof.
  induction l as [|iv l IH]; intros w prev Hw Hc; simpl.
  - exact Hw.
  - destruct Hc as (C1 & C2 & C3). apply IH; [lra | exact C3].
Qed.

End MoreProcessFacts.

(** X1: [Process.__init__] accepts exactly a non-negative identifier, a
    non-negative arrival time and a positive service time; the process it
    builds is [NEW], has its whole service time left and has not run; any
    other call raises [ValueError]. *)
Theorem process_init_guards (id : Z) (a s : Q) :
  ((0 <= id)%Z /\ 0 <= a /\ 0 < s ->
   process.init id a s = Ok (process.mkProcess id a process.NEW s s []))
  /\ (~ ((0 <= id)%Z /\ 0 <= a /\ 0 < s) ->
      exists msg, process.init id a s = Raise (ValueError msg)).
Proof.
  unfold process.init. split.
  - intros (Hid & Ha & Hs).
    apply Z.leb_le in Hid. apply Qleb_le in Ha. apply Qltb_lt in Hs.
    rewrite Hid, Ha, Hs. reflexivity.
  - intros Hn.
    destruct (0 <=? id)%Z eqn:Hid; simpl; [|eauto].
    destruct (Qleb 0 a) eqn:Ha; simpl; [|eauto].
    destruct (Qltb 0 s) eqn:Hs; simpl; [|eauto].
    exfalso. apply Hn. apply Z.leb_le in Hid. apply Qleb_le in Ha.
    apply Qltb_lt in Hs. auto.
Qed.

Lemma process_init_guards_witness :
  process.init 4 0 3 = Ok (process.mkProcess 4 0 process.NEW 3 3 [])
  /\ exists msg, process.init 4 0 0 = Raise (ValueError msg).
Proof.
  split.
  - apply (proj1 (process_init_guards 4 0 3)). split; [lia | split; lra].
  - apply (proj2 (process_init_guards 4 0 0)). intros (_ & _ & H). lra.
Defined.

(** X3: With quanta that are not negative, [remaining_time] never grows over a
    sequence of [run_for] calls and stays non-negative. *)
Theorem remaining_time_non_increasing (p : process.Process) (calls : list (Q * Q))
    (p' : process.Process) (useds : list Q) :
  0 <= process.remaining_time p ->
  Forall (fun c => 0 <= fst c) calls ->
  notions.run_for_each p calls = Ok (p', useds) ->
  0 <= process.remaining_time p' /\ process.remaining_time p' <= process.remaining_time p.
Proof.
  intros Hp Hall Hr.
  apply run_for_each_spec in Hr as (B1 & B2). auto.
Qed.

Lemma remaining_time_non_increasing_witness :
  exists p' useds,
    notions.run_for_each (process.mkProcess 0 1 process.READY 5 5 []) [(2, 1); (0, 4)]
    = Ok (p', useds)
    /\ 0 <= process.remaining_time p' /\ process.remaining_time p' <= 5.
Proof.
  destruct (notions.run_for_each (process.mkProcess 0 1 process.READY 5 5 [])
              [(2, 1); (0, 4)]) as [[p' useds]|e] eqn:E;
    [|vm_compute in E; discriminate E].
  exists p', useds. split; [reflexivity|].
  apply (remaining_time_non_increasing
           (process.mkProcess 0 1 process.READY 5 5 []) [(2, 1); (0, 4)] p' useds).
  - simpl. lra.
  - repeat constructor; simpl; lra.
  - exact E.
Defined.

(** X4: A quantum that covers the remaining time drains the process: [run_for]
    returns the remaining time and leaves none.  A smaller quantum is
    returned as it is and leaves the difference. *)
Theorem run_for_drains_or_preempts (self : process.Process) (q t : Q) :
  exists self' used,
    process.run_for self q t = Ok (self', used)
    /\ (process.remaining_time self <= q ->
        used == process.remaining_time self /\ process.remaining_time self' == 0)
    /\ (q < process.remaining_time self ->
        used = q
        /\ process.remaining_time self' == process.remaining_time self - q
        /\ 0 < process.remaining_time self').
Proof.
  do 2 eexists. split; [reflexivity|]. simpl.
  destruct (pymin_cases q (process.remaining_time self)) as [[H ->]|[H ->]];
    split; intros H'; repeat split; lra.
Qed.

Lemma run_for_drains_or_preempts_witness :
  exists self' used,
    process.run_for (process.mkProcess 0 1 process.READY 5 3 [(1, 3)]) 4 6
    = Ok (self', used)
    /\ used == 3 /\ process.remaining_time self' == 0.
Proof.
  destruct (run_for_drains_or_preempts
              (process.mkProcess 0 1 process.READY 5 3 [(1, 3)]) 4 6)
    as (self' & used & H & Hd & _).
  exists self', used. split; [exact H|]. apply Hd. simpl. lra.
Defined.

(** X6: When the execution intervals follow each other in time and none
    starts before the arrival of the process, the waiting time is not
    negative. *)
Theorem waiting_time_not_negative (self : process.Process) :
  notions.chronological (process.arrival_time self) (process.execution_times self) ->
  0 <= process.waiting_time self.
Proof.
  intros Hc. unfold process.waiting_time.
  apply waiting_loop; [lra | assumption].
Qed.

Lemma waiting_time_not_negative_witness :
  0 <= process.waiting_time
         (process.mkProcess 0 1 process.TERMINATED 5 0 [(2, 4); (6, 9)]).
Proof.
  apply (waiting_time_not_negative
           (process.mkProcess 0 1 process.TERMINATED 5 0 [(2, 4); (6, 9)])).
  simpl. repeat split; lra.
Defined.

(** Disorder in the intervals does show: an interval recorded before the
    arrival makes the waiting time negative. *)
Example waiting_time_negative_before_arrival :
  process.waiting_time (process.mkProcess 0 4 process.TERMINATED 2 0 [(1, 3)]) < 0.
Proof. reflexivity. Qed.

(** ** event.py and the events queue *)

(** X7: [Event.__lt__] is a strict order on the event times alone: no event is
    before itself, the comparison is transitive and asymmetric, and two
    events of the same time are unordered whatever their types and
    processes. *)
Theorem event_lt_strict_order :
  (forall a, event.lt a a = false)
  /\ (forall a b c, event.lt a b = true -> event.lt b c = true -> event.lt a c = true)
  /\ (forall a b, event.lt a b = true -> event.lt b a = false)
  /\ (forall a b, event.event_time a == event.event_time b ->
                  event.lt a b = false /\ event.lt b a = false).
Proof.
  unfold event.lt. repeat split.
  - intros a. apply Qltb_ge. lra.
  - intros a b c H1 H2. apply Qltb_lt in H1, H2. apply Qltb_lt. lra.
  - intros a b H. apply Qltb_lt in H. apply Qltb_ge. lra.
  - apply Qltb_ge. lra.
  - apply Qltb_ge. lra.
Qed.

Section MoreQueueFacts.
Import event des.

Lemma filter_all {A : Type} (f : A -> bool) (l : list A) :
  Forall (fun x => f x = true) l -> filter f l = l.
Proof.
  induction 1 as [|x l Hx _ IH]; simpl; [reflexivity|]. rewrite Hx, IH. reflexivity.
Qed.

Lemma filter_none {A : Type} (f : A -> bool) (l : list A) :
  Forall (fun x => f x = false) l -> filter f l = [].
Proof.
  induction 1 as [|x l Hx _ IH]; simpl; [reflexivity|]. rewrite Hx, IH. reflexivity.
Qed.

(** Where [insort] puts an event in a sorted queue. *)
Lemma insort_position (a : list Event) (x : Event) :
  StronglySorted le_time a ->
  Forall (fun e => event_time e <= event_time x)
    (firstn (bisect_right a x 0 (length a)) a)
  /\ Forall (fun e => event_time x < event_time e)
       (skipn (bisect_right a x 0 (length a)) a).
Proof.
  intros Hs. apply bisect_right_splits.
  - assumption.
  - lia.
  - constructor.
  - rewrite skipn_all. constructor.
Qed.

Lemma insert_permutation (a : list Event) (i : nat) (x : Event) :
  Permutation (insert a i x) (x :: a).
Proof.
  unfold insert. rewrite <- (firstn_skipn i a) at 3.
  symmetry. apply Permutation_middle.
Qed.

Lemma first_after_spec (t : Q) (q : list Event) :
  match first_after t q with
  | Inf => Forall (fun e => event_time e <= t) q
  | Fin u =>
      exists before e after,
        q = before ++ e :: after
        /\ Forall (fun e' => event_time e' <= t) before
        /\ t < event_time e
        /\ u = event_time e
  end.
Proof.
  induction q as [|e q IH]; simpl.
  - constructor.
  - destruct (Qltb t (event_time e)) eqn:E.
    + exists [], e, q. apply Qltb_lt in E. repeat split; [constructor | assumption].
    + apply Qltb_ge in E. destruct (first_after t q) as [u|].
      * destruct IH as (before & e' & after & -> & Hb & Ht & Hu).
        exists (e :: before), e', after. repeat split; try assumption.
        constructor; assumption.
      * constructor; assumption.
Qed.

Lemma sorted_behind (before : list Event) (e : Event) (after : list Event) :
  StronglySorted le_time (before ++ e :: after) -> Forall (le_time e) after.
Proof.
  induction before as [|b before IH]; simpl; intros Hs; inversion Hs; subst.
  - assumption.
  - apply IH. assumption.
Qed.

End MoreQueueFacts.

(** X8: [insort] adds the event and nothing else: the new queue is the old one
    with the event put somewhere, whether or not the old queue was
    sorted. *)
Theorem insort_adds_one_event (a : list event.Event) (x : event.Event) :
  Permutation (des.insort a x) (x :: a)
  /\ length (des.insort a x) = S (length a).
Proof.
  assert (H : Permutation (des.insort a x) (x :: a)) by apply insert_permutation.
  split; [exact H|]. apply Permutation_length in H. exact H.
Qed.

(** X9: In a sorted queue [insort] places an event behind every queued event
    that is not later, those of the same time included, and before every
    later one: ties leave the queue in the order of insertion. *)
Theorem insort_behind_equal_times (a : list event.Event) (x : event.Event) :
  des.scan_non_decreasing a = true ->
  des.insort a x
  = filter (fun e => Qleb (event.event_time e) (event.event_time x)) a
    ++ x :: filter (fun e => Qltb (event.event_time x) (event.event_time e)) a.
Proof.
  intros Hs. apply scan_StronglySorted in Hs.
  destruct (insort_position a x Hs) as [Hlo Hhi].
  unfold des.insort, des.insert.
  set (r := des.bisect_right a x 0 (length a)) in *.
  rewrite <- (firstn_skipn r a) at 3 4. rewrite !filter_app.
  rewrite (filter_all _ (firstn r a)), (filter_none _ (skipn r a)).
  - rewrite (filter_none _ (firstn r a)), (filter_all _ (skipn r a)).
    + rewrite app_nil_r. reflexivity.
    + eapply Forall_impl; [| exact Hhi]. intros e He. apply Qltb_lt. exact He.
    + eapply Forall_impl; [| exact Hlo]. intros e He. apply Qltb_ge. exact He.
  - eapply Forall_impl; [| exact Hhi]. intros e He. cbv beta in He.
    unfold Qleb. destruct (Qle_bool (event.event_time e) (event.event_time x)) eqn:E;
      [|reflexivity].
    apply Qle_bool_iff in E. lra.
  - eapply Forall_impl; [| exact Hlo]. intros e He. apply Qleb_le. exact He.
Qed.

Lemma insort_behind_equal_times_witness :
  des.insort
    [event.mkEvent event.PROC_ARRIVES 1 0; event.mkEvent event.PROC_ARRIVES 2 1;
     event.mkEvent event.PROC_CPU_REQ 2 0; event.mkEvent event.PROC_ARRIVES 4 2]
    (event.mkEvent event.PROC_ARRIVES 2 3)
  = [event.mkEvent event.PROC_ARRIVES 1 0; event.mkEvent event.PROC_ARRIVES 2 1;
     event.mkEvent event.PROC_CPU_REQ 2 0; event.mkEvent event.PROC_ARRIVES 2 3;
     event.mkEvent event.PROC_ARRIVES 4 2].
Proof.
  rewrite (insort_behind_equal_times
             [event.mkEvent event.PROC_ARRIVES 1 0; event.mkEvent event.PROC_ARRIVES 2 1;
              event.mkEvent event.PROC_CPU_REQ 2 0; event.mkEvent event.PROC_ARRIVES 4 2]
             (event.mkEvent event.PROC_ARRIVES 2 3)).
  - reflexivity.
  - reflexivity.
Defined.

(** X10: After an [insort] into a sorted queue, [popleft] does not raise: it
    returns an event that is no later than the inserted one nor than any
    event it leaves, and what it leaves is sorted; together they are the old
    queue and the inserted event. *)
Theorem popleft_after_insort (a : list event.Event) (x : event.Event) :
  des.scan_non_decreasing a = true ->
  exists m rest,
    des.popleft (des.insort a x) = Ok (m, rest)
    /\ event.event_time m <= event.event_time x
    /\ Forall (fun e => event.event_time m <= event.event_time e) rest
    /\ des.scan_non_decreasing rest = true
    /\ Permutation (m :: rest) (x :: a).
Proof.
  intros Hs. apply scan_StronglySorted in Hs.
  pose proof (insort_sorted a x Hs) as Hs'.
  pose proof (insert_permutation a (des.bisect_right a x 0 (length a)) x) as Hp.
  fold (des.insort a x) in Hp.
  destruct (des.insort a x) as [|m rest] eqn:E.
  - apply Permutation_length in Hp. discriminate.
  - exists m, rest. simpl. inversion Hs' as [|? ? Hrest Hall]; subst.
    repeat split.
    + assert (Hin : In x (m :: rest)).
      { eapply Permutation_in; [symmetry; exact Hp | left; reflexivity]. }
      destruct Hin as [->|Hin]; [lra|].
      rewrite Forall_forall in Hall. apply (Hall x Hin).
    + exact Hall.
    + apply scan_StronglySorted. exact Hrest.
    + exact Hp.
Qed.

Lemma popleft_after_insort_witness :
  exists m rest,
    des.popleft
      (des.insort [event.mkEvent event.PROC_ARRIVES 2 1; event.mkEvent event.PROC_ARRIVES 4 2]
         (event.mkEvent event.PROC_CPU_REQ 3 0))
    = Ok (m, rest)
    /\ event.event_time m <= 3.
Proof.
  destruct (popleft_after_insort
              [event.mkEvent event.PROC_ARRIVES 2 1; event.mkEvent event.PROC_ARRIVES 4 2]
              (event.mkEvent event.PROC_CPU_REQ 3 0))
    as (m & rest & H & Hle & _).
  - reflexivity.
  - exists m, rest. split; [exact H | exact Hle].
Defined.

(** [popleft] raises [IndexError] on an empty deque and on no other. *)
Theorem popleft_raises_only_when_empty (a : list event.Event) :
  (a = [] <-> exists msg, des.popleft a = Raise (IndexError msg))
  /\ forall x rest, a = x :: rest -> des.popleft a = Ok (x, rest).
Proof.
  split; [split|].
  - intros ->. eexists. reflexivity.
  - intros [msg H]. destruct a; [reflexivity | discriminate].
  - intros x rest ->. reflexivity.
Qed.

(** X11: [next_event_time] returns the time of the first queued event that is
    later than the clock, and infinity exactly when no queued event is
    later; in a sorted queue the time returned is the least event time
    later than the clock. *)
Theorem next_event_time_is_first_later {PS : Type} (self : des.SchedulerDES PS) :
  (des.next_event_time self = des.Inf <->
   Forall (fun e => event.event_time e <= des.time self) (des.events_queue self))
  /\ forall u,
       des.next_event_time self = des.Fin u ->
       des.time self < u
       /\ (exists e, In e (des.events_queue self) /\ event.event_time e = u)
       /\ (des.scan_non_decreasing (des.events_queue self) = true ->
           forall e, In e (des.events_queue self) ->
                     des.time self < event.event_time e -> u <= event.event_time e).
Proof.
  unfold des.next_event_time.
  pose proof (first_after_spec (des.time self) (des.events_queue self)) as H.
  destruct (des.first_after (des.time self) (des.events_queue self)) as [v|].
  - destruct H as (before & e & after & Hq & Hb & Ht & Hv). split.
    + split; [discriminate|]. intros Hall. exfalso.
      rewrite Hq in Hall. apply Forall_app in Hall as [_ Hall].
      inversion Hall; subst. lra.
    + intros u Hu. injection Hu as <-. subst v. split; [assumption|]. split.
      * exists e. split; [|reflexivity]. rewrite Hq. apply in_or_app. right. left.
        reflexivity.
      * intros Hs e' Hin Hlater. apply scan_StronglySorted in Hs.
        rewrite Hq in Hs, Hin. apply in_app_or in Hin as [Hin|[<-|Hin]].
        -- rewrite Forall_forall in Hb. specialize (Hb e' Hin). simpl in Hb. lra.
        -- lra.
        -- pose proof (sorted_behind _ _ _ Hs) as Hall.
           rewrite Forall_forall in Hall. apply (Hall e' Hin).
  - split.
    + split; [intros _; exact H | reflexivity].
    + intros u Hu. discriminate.
Qed.

(** ** des.py: construction and workload generation *)

Section GenerationFacts.
Import process event des notions.
Context {PS : Type}.
Local Abbreviation Sim := (SchedulerDES PS).

Lemma process_init_Ok (id : Z) (a s : Q) (p : Process) :
  process.init id a s = Ok p ->
  p = mkProcess id a NEW s s [] /\ (0 <= id)%Z /\ 0 <= a /\ 0 < s.
Proof.
  unfold process.init. intros H.
  destruct (0 <=? id)%Z eqn:Hid; simpl in H; [|discriminate].
  destruct (Qleb 0 a) eqn:Ha; simpl in H; [|discriminate].
  destruct (Qltb 0 s) eqn:Hs; simpl in H; [|discriminate].
  injection H as <-. apply Z.leb_le in Hid. apply Qleb_le in Ha. apply Qltb_lt in Hs.
  auto.
Qed.

Lemma event_init_Ok (id : Z) (ty : EventTypes) (t : Q) (ev : Event) :
  event.init id ty t = Ok ev -> ev = mkEvent ty t id /\ 0 <= t /\ (0 <= id)%Z.
Proof.
  unfold event.init. intros H.
  destruct (Qleb 0 t) eqn:Ht; simpl in H; [|discriminate].
  destruct (0 <=? id)%Z eqn:Hid; simpl in H; [|discriminate].
  injection H as <-. apply Z.leb_le in Hid. apply Qleb_le in Ht. auto.
Qed.

Lemma generate_loop_spec (R : Random) (n : nat) :
  forall (i : Z) (t : Q) (self : Sim) (g : rng R) (self' : Sim) (g' : rng R),
    generate_loop R n i t self g = Ok (self', g') ->
    exists ps,
      processes self' = processes self ++ ps
      /\ length ps = n
      /\ (forall k p, nth_error ps k = Some p ->
                      process.process_id p = (i + Z.of_nat k)%Z /\ fresh p)
      /\ Permutation (events_queue self') (events_queue self ++ map arrival_event ps)
      /\ (StronglySorted le_time (events_queue self) ->
          StronglySorted le_time (events_queue self'))
      /\ time self' = time self
      /\ configuration self' = configuration self
      /\ policy_state self' = policy_state self.
Proof.
  induction n as [|n IH]; intros i t self g self' g' H.
  - simpl in H. injection H as <- _. exists []. rewrite !app_nil_r.
    split; [reflexivity|]. split; [reflexivity|].
    split; [intros [|k] q Hk; discriminate|]. repeat split; auto.
  - cbn [generate_loop] in H.
    apply bind_Ok in H as ([a g1] & _ & H).
    apply bind_Ok in H as ([s g2] & _ & H).
    apply bind_Ok in H as (p & Hp & H).
    apply bind_Ok in H as (ev & Hev & H).
    apply process_init_Ok in Hp as (-> & Hid & Ha & Hs).
    apply event_init_Ok in Hev as (-> & _ & _).
    apply IH in H as (ps & H1 & H2 & H3 & H4 & H5 & H6 & H7 & H8).
    simpl in H1, H4, H5, H6, H7, H8.
    exists (mkProcess i (t + a) NEW s s [] :: ps).
    split; [rewrite H1, <- app_assoc; reflexivity|].
    split; [simpl; congruence|].
    split; [|split; [|split; [|split; [exact H6 | split; [exact H7 | exact H8]]]]].
    + intros [|k] q Hk; simpl in Hk.
      * injection Hk as <-. split; [simpl; lia|]. unfold fresh. simpl. auto.
      * apply H3 in Hk as [Hk Hf]. split; [rewrite Hk; lia | exact Hf].
    + rewrite H4. simpl map.
      unfold insort. rewrite (insert_permutation (events_queue self) _ _).
      exact (Permutation_middle _ _ _).
    + intros Hsorted. apply H5. apply insort_sorted. assumption.
Qed.

Lemma generate_and_init_spec (R : Random) (self : Sim) (s : option Z) (g : rng R)
    (self' : Sim) (g' : rng R) :
  generate_and_init R self s g = Ok (self', g') ->
  length (processes self') = Z.to_nat (num_processes self)
  /\ (forall k p, nth_error (processes self') k = Some p ->
                  process.process_id p = Z.of_nat k /\ fresh p)
  /\ Permutation (events_queue self') (map arrival_event (processes self'))
  /\ StronglySorted le_time (events_queue self')
  /\ time self' = 0
  /\ configuration self' = configuration self.
Proof.
  unfold generate_and_init. intros H.
  apply generate_loop_spec in H as (ps & H1 & H2 & H3 & H4 & H5 & H6 & H7 & _).
  simpl in H1, H4, H5. rewrite H1.
  split; [exact H2|]. split; [exact H3|]. split; [exact H4|].
  split; [apply H5; constructor|]. split; [exact H6 | exact H7].
Qed.

(** In a sorted queue whose events are all no later than [x], [insort]
    appends [x]. *)
Lemma insort_append (a : list Event) (x : Event) :
  StronglySorted le_time a ->
  Forall (fun e => event_time e <= event_time x) a ->
  insort a x = a ++ [x].
Proof.
  intros Hs Hall. destruct (insort_position a x Hs) as [_ Hhi].
  unfold insort, insert. set (r := bisect_right a x 0 (length a)) in *.
  assert (Hnil : skipn r a = []).
  { rewrite <- (firstn_skipn r a) in Hall. apply Forall_app in Hall as [_ Hall].
    destruct (skipn r a) as [|e l]; [reflexivity|].
    inversion Hall; inversion Hhi; subst. lra. }
  rewrite Hnil. rewrite <- (firstn_skipn r a) at 2. rewrite Hnil, app_nil_r.
  reflexivity.
Qed.

Lemma generate_loop_in_order (R : Random) (n : nat) :
  (forall g, 0 <= fst (standard_exponential R g)) ->
  forall (i : Z) (t : Q) (self : Sim) (g : rng R) (self' : Sim) (g' : rng R),
    0 < _arrivals_per_time_unit self ->
    events_queue self = map arrival_event (processes self) ->
    StronglySorted (fun p q => arrival_time p <= arrival_time q) (processes self) ->
    Forall (fun p => arrival_time p <= t) (processes self) ->
    generate_loop R n i t self g = Ok (self', g') ->
    events_queue self' = map arrival_event (processes self')
    /\ StronglySorted (fun p q => arrival_time p <= arrival_time q) (processes self').
Proof.
  intros Hdraw. induction n as [|n IH]; intros i t self g self' g' Harr Hq Hs Hall H.
  - simpl in H. injection H as <- _. split; assumption.
  - cbn [generate_loop] in H.
    apply bind_Ok in H as ([a g1] & Ha & H).
    apply bind_Ok in H as ([s g2] & _ & H).
    apply bind_Ok in H as (p & Hp & H).
    apply bind_Ok in H as (ev & Hev & H).
    apply process_init_Ok in Hp as (-> & _ & _ & _).
    apply event_init_Ok in Hev as (-> & _ & _).
    assert (Hnn : 0 <= a).
    { unfold exponential in Ha.
      destruct (Qltb (1 / _arrivals_per_time_unit self) 0); [discriminate|].
      specialize (Hdraw g). destruct (standard_exponential R g) as [x gx].
      injection Ha as <- _. simpl in Hdraw.
      assert (0 < 1 / _arrivals_per_time_unit self).
      { unfold Qdiv. rewrite Qmult_1_l. apply Qinv_lt_0_compat. assumption. }
      apply Qmult_le_0_compat; [apply Qlt_le_weak|]; assumption. }
    simpl in H.
    set (p := mkProcess i (t + a) NEW s s []) in *.
    assert (Hall' : Forall (fun q => arrival_time q <= arrival_time p) (processes self)).
    { eapply Forall_impl; [| exact Hall]. intros q Hq'. simpl in *. lra. }
    refine (IH _ _ _ _ _ _ _ _ _ _ H).
    + exact Harr.
    + simpl. rewrite map_app. simpl. rewrite Hq.
      change (mkEvent PROC_ARRIVES (t + a) i) with (arrival_event p).
      apply insort_append.
      * clear -Hs. induction Hs as [|q l Hs IH Hq]; simpl; constructor; [assumption|].
        rewrite Forall_map. exact Hq.
      * rewrite Forall_map. exact Hall'.
    + simpl. clear -Hs Hall'.
      induction Hs as [|q l Hs IH Hq]; simpl.
      * repeat constructor.
      * inversion Hall'; subst. constructor; [apply IH; assumption|].
        apply Forall_app. split; [assumption | repeat constructor; assumption].
    + simpl. apply Forall_app. split.
      * eapply Forall_impl; [| exact Hall]. intros q Hq'. simpl in *. lra.
      * repeat constructor. simpl. lra.
Qed.

End GenerationFacts.

Section WorkloadFacts.
Import process event des notions.

(** Generation reads the arrival rate, the mean burst time and the tables
    it builds, nothing else of the simulator. *)
Lemma generate_loop_workload {PS1 PS2 : Type} (R : Random) (n : nat) :
  forall (i : Z) (t : Q) (self1 : SchedulerDES PS1) (self2 : SchedulerDES PS2)
         (g : rng R),
    _arrivals_per_time_unit self1 = _arrivals_per_time_unit self2 ->
    _avg_cpu_burst_time self1 = _avg_cpu_burst_time self2 ->
    processes self1 = processes self2 ->
    events_queue self1 = events_queue self2 ->
    workload R (generate_loop R n i t self1 g)
    = workload R (generate_loop R n i t self2 g).
Proof.
  induction n as [|n IH]; intros i t self1 self2 g Harr Havg Hps Hq.
  - simpl. rewrite Hps, Hq. reflexivity.
  - cbn [generate_loop]. rewrite <- Harr, <- Havg.
    destruct (exponential R (1 / _arrivals_per_time_unit self1) g) as [[a g1]|e];
      [|reflexivity].
    cbn [bind].
    destruct (exponential R (_avg_cpu_burst_time self1) g1) as [[s g2]|e];
      [|reflexivity].
    cbn [bind].
    destruct (process.init i (t + a) s) as [p|e]; [|reflexivity].
    cbn [bind].
    destruct (event.init (process.process_id p) PROC_ARRIVES (t + a)) as [ev|e];
      [|reflexivity].
    cbn [bind]. apply IH; simpl; congruence.
Qed.

End WorkloadFacts.



(** X13: What [generate_and_init] leaves when it returns: exactly
    [num_processes] processes, whatever the simulator held before, the
    process at position k having identifier k; every process [NEW], with
    its whole positive service time left, a non-negative arrival time and no
    execution interval; a sorted queue holding one arrival event per
    process; the clock at 0, no process on the CPU, and the configuration
    and the subclass attributes untouched. *)
Theorem generate_and_init_postconditions {PS : Type} (R : des.Random)
    (self : des.SchedulerDES PS) (s : option Z) (g : des.rng R)
    (self' : des.SchedulerDES PS) (g' : des.rng R) :
  des.generate_and_init R self s g = Ok (self', g') ->
  length (des.processes self') = Z.to_nat (des.num_processes self)
  /\ (forall k p, nth_error (des.processes self') k = Some p ->
                  process.process_id p = Z.of_nat k /\ notions.fresh p)
  /\ Permutation (des.events_queue self')
       (map notions.arrival_event (des.processes self'))
  /\ des.scan_non_decreasing (des.events_queue self') = true
  /\ des.time self' = 0
  /\ des.process_on_cpu self' = None
  /\ notions.configuration self' = notions.configuration self
  /\ des.policy_state self' = des.policy_state self.
Proof.
  intros H. pose proof (generate_and_init_frame _ _ _ _ _ _ H) as [_ Hcpu].
  unfold des.generate_and_init in H.
  apply generate_loop_spec in H as (ps & H1 & H2 & H3 & H4 & H5 & H6 & H7 & H8).
  simpl in H1, H4, H5. rewrite H1.
  split; [exact H2|]. split; [exact H3|]. split; [exact H4|].
  split; [apply scan_StronglySorted, H5; constructor|].
  split; [exact H6|]. split; [exact Hcpu|]. split; [exact H7 | exact H8].
Qed.

Lemma generate_and_init_postconditions_witness :
  exists self' g',
    des.generate_and_init (fixtures.replay fixtures.tape) fixtures.used_simulator
      (Some 1%Z) [] = Ok (self', g')
    /\ length (des.processes self') = 3%nat
    /\ des.time self' = 0.
Proof.
  destruct (des.generate_and_init (fixtures.replay fixtures.tape)
              fixtures.used_simulator (Some 1%Z) []) as [[self' g']|e] eqn:E;
    [|vm_compute in E; discriminate E].
  destruct (generate_and_init_postconditions _ _ _ _ _ _ E) as (H1 & _ & _ & _ & H5 & _).
  exists self', g'. split; [reflexivity|]. split; [exact H1 | exact H5].
Defined.

(** X14: With draws that are not negative, as exponential draws are, the
    arrival times do not decrease along the process table and the queue
    lists the arrival events in the order of the processes. *)
Theorem generated_queue_in_process_order {PS : Type} (R : des.Random)
    (self : des.SchedulerDES PS) (s : option Z) (g : des.rng R)
    (self' : des.SchedulerDES PS) (g' : des.rng R) :
  (forall g0, 0 <= fst (des.standard_exponential R g0)) ->
  0 < des._arrivals_per_time_unit self ->
  des.generate_and_init R self s g = Ok (self', g') ->
  des.events_queue self' = map notions.arrival_event (des.processes self')
  /\ StronglySorted (fun p q => process.arrival_time p <= process.arrival_time q)
       (des.processes self').
Proof.
  intros Hdraw Harr H. unfold des.generate_and_init in H.
  refine (generate_loop_in_order R _ Hdraw _ _ _ _ _ _ _ _ _ _ H).
  - exact Harr.
  - reflexivity.
  - constructor.
  - constructor.
Qed.

Lemma generated_queue_in_process_order_witness :
  exists self' g',
    des.generate_and_init notions.counting (fixtures.simulator 0) (Some 1%Z) 0%nat
    = Ok (self', g')
    /\ des.events_queue self' = map notions.arrival_event (des.processes self').
Proof.
  destruct (des.generate_and_init notions.counting (fixtures.simulator 0)
              (Some 1%Z) 0%nat) as [[self' g']|e] eqn:E;
    [|vm_compute in E; discriminate E].
  exists self', g'. split; [reflexivity|].
  apply (generated_queue_in_process_order notions.counting (fixtures.simulator 0)
           (Some 1%Z) 0%nat self' g').
  - intros g0. simpl. unfold Qle. simpl. lia.
  - reflexivity.
  - exact E.
Defined.

(** X15: The workload depends on the number of processes, the arrival rate, the
    mean burst time and the seeded generator only: simulators of different
    subclasses, context switch times and quanta, whatever they held before,
    generate the same process table and the same queue, or raise the same
    exception. *)
Theorem workload_independent_of_policy {PS1 PS2 : Type} (R : des.Random)
    (self1 : des.SchedulerDES PS1) (self2 : des.SchedulerDES PS2)
    (s : option Z) (g1 g2 : des.rng R) :
  des.num_processes self1 = des.num_processes self2 ->
  des._arrivals_per_time_unit self1 = des._arrivals_per_time_unit self2 ->
  des._avg_cpu_burst_time self1 = des._avg_cpu_burst_time self2 ->
  des.seed R s g1 = des.seed R s g2 ->
  notions.workload R (des.generate_and_init R self1 s g1)
  = notions.workload R (des.generate_and_init R self2 s g2).
Proof.
  intros Hn Harr Havg Hg. unfold des.generate_and_init. rewrite Hg.
  change (des.num_processes (des.reset self1)) with (des.num_processes self1).
  change (des.num_processes (des.reset self2)) with (des.num_processes self2).
  rewrite Hn. apply generate_loop_workload; simpl; auto.
Qed.

Lemma workload_independent_of_policy_witness :
  notions.workload (fixtures.replay fixtures.tape)
    (des.generate_and_init (fixtures.replay fixtures.tape)
       (des.mkSchedulerDES 3 1 1 0 des.Inf None 0 [] [] tt) (Some 1%Z) [])
  = notions.workload (fixtures.replay fixtures.tape)
      (des.generate_and_init (fixtures.replay fixtures.tape)
         (des.mkSchedulerDES 3 1 1 2 (des.Fin (1 # 2)) (Some 1%nat) 9 [] [] 7%nat)
         (Some 1%Z) [3]).
Proof.
  apply (workload_independent_of_policy (fixtures.replay fixtures.tape)
           (des.mkSchedulerDES 3 1 1 0 des.Inf None 0 [] [] tt)
           (des.mkSchedulerDES 3 1 1 2 (des.Fin (1 # 2)) (Some 1%nat) 9 [] [] 7%nat)
           (Some 1%Z) [] [3]); reflexivity.
Defined.

(** ** des.py: the loop of [run] *)

Section LoopFacts.
Import process event des notions.
Context {PS : Type}.
Variable policy : Policy PS.
Variable level : logging.Level.
Local Abbreviation Sim := (SchedulerDES PS).

(** The promotion [__update_process_states] applies to one process at
    clock [t]. *)
Lemma promote_cases (t : Q) (p : Process) :
  let p' := if Qleb (arrival_time p) t && ProcessStates_eqb (process_state p) NEW
            then set_process_state p READY else p in
  (process_state p = NEW -> arrival_time p <= t -> p' = set_process_state p READY)
  /\ (process_state p <> NEW \/ t < arrival_time p -> p' = p)
  /\ (arrival_time p' <= t -> process_state p' <> NEW).
Proof.
  cbv zeta. destruct (Qleb (arrival_time p) t) eqn:Ha;
    destruct (ProcessStates_eqb (process_state p) NEW) eqn:Hs; simpl.
  - repeat split; try reflexivity.
    + apply ProcessStates_eqb_eq in Hs. apply Qleb_le in Ha.
      intros [H|H]; [contradiction | lra].
    + discriminate.
  - assert (process_state p <> NEW).
    { intros E. apply ProcessStates_eqb_eq in E. congruence. }
    repeat split; try reflexivity; [contradiction | auto].
  - assert (~ arrival_time p <= t).
    { intros E. apply Qleb_le in E. unfold Qleb in *. congruence. }
    repeat split; try reflexivity; [contradiction | contradiction].
  - assert (~ arrival_time p <= t).
    { intros E. apply Qleb_le in E. unfold Qleb in *. congruence. }
    repeat split; try reflexivity; [contradiction | contradiction].
Qed.

Lemma events_queue_iteration (self : Sim) (cur : Event) (rest : list Event)
    (self' : Sim) (clk : Q) (ev : Event) :
  iteration policy level self cur rest = Ok (self', (clk, ev)) ->
  events_queue self'
  = (if EventTypes_eqb (event_type ev) PROC_CPU_DONE then rest else insort rest ev)
  /\ configuration self' = configuration self.
Proof.
  intros H. apply iteration_Ok in H as (s & p & h & Hs & _ & _ & _ & ->).
  apply select_Ok in Hs as (h0 & pr & _ & -> & _).
  unfold conclude, switch, commit, advance.
  destruct (EventTypes_eqb (event_type ev) PROC_CPU_DONE);
    destruct (differs p _); destruct (Qltb (time _) (event_time cur));
    simpl; split; reflexivity.
Qed.

Lemma run_loop_invariant (fuel : nat) :
  forall self : Sim,
    StronglySorted le_time (events_queue self) ->
    match snd (run_loop policy level fuel self) with
    | Finished s => events_queue s = [] /\ configuration s = configuration self
    | Unfinished s =>
        StronglySorted le_time (events_queue s) /\ events_queue s <> []
        /\ configuration s = configuration self
    | Aborted _ => True
    end.
Proof.
  induction fuel as [|fuel IH]; intros self Hs; simpl;
    destruct (events_queue self) as [|cur rest] eqn:Hq; simpl.
  - split; [assumption | reflexivity].
  - rewrite Hq. repeat split; [assumption | discriminate].
  - split; [assumption | reflexivity].
  - destruct (iteration policy level self cur rest) as [[self' [clk ev]]|e] eqn:Hi;
      [|exact I].
    apply events_queue_iteration in Hi as [Hq' Hc].
    specialize (IH self').
    destruct (run_loop policy level fuel self') as [steps o]. simpl in *.
    assert (Hs' : StronglySorted le_time (events_queue self')).
    { rewrite Hq'. inversion Hs; subst.
      destruct (EventTypes_eqb (event_type ev) PROC_CPU_DONE);
        [assumption | apply insort_sorted; assumption]. }
    specialize (IH Hs'). destruct o; try rewrite <- Hc; exact IH.
Qed.

(** The clock at the start of an iteration is the time of the event the
    dispatcher returned in the iteration before. *)
Lemma run_loop_chain (fuel : nat) :
  forall (self : Sim) (k : nat) (st1 st2 : Step) (c : Q) (ev : Event),
    nth_error (fst (run_loop policy level fuel self)) k = Some st1 ->
    nth_error (fst (run_loop policy level fuel self)) (S k) = Some st2 ->
    dispatched st1 = Some (c, ev) ->
    clock_at_start st2 = event_time ev.
Proof.
  induction fuel as [|fuel IH]; intros self k st1 st2 c ev H1 H2 Hd; simpl in *;
    destruct (events_queue self) as [|cur rest] eqn:Hq; simpl in *;
    try (destruct k; discriminate).
  destruct (iteration policy level self cur rest) as [[self' [clk ev']]|e] eqn:Hi.
  - pose proof (iteration_clock policy level _ _ _ _ _ _ Hi) as (_ & _ & _ & Ht & _).
    specialize (IH self').
    destruct (run_loop policy level fuel self') as [steps o] eqn:Hr. simpl in *.
    destruct k as [|k]; simpl in *.
    + injection H1 as <-. simpl in Hd. injection Hd as _ <-.
      destruct fuel as [|fuel']; simpl in Hr;
        destruct (events_queue self') as [|cur' rest'] eqn:Hq';
        try (injection Hr as <- _; discriminate).
      destruct (iteration policy level self' cur' rest') as [[s'' d'']|e''].
      * destruct (run_loop policy level fuel' s'') as [steps' o'].
        injection Hr as <- _. simpl in H2. injection H2 as <-. simpl. exact Ht.
      * injection Hr as <- _. simpl in H2. injection H2 as <-. simpl. exact Ht.
    + eapply IH; eassumption.
  - simpl in *. destruct k as [|[|k]]; discriminate.
Qed.

Lemma run_loop_first (fuel : nat) (self : Sim) (st : Step) :
  nth_error (fst (run_loop policy level fuel self)) 0 = Some st ->
  clock_at_start st = time self
  /\ exists rest, events_queue self = cur_event st :: rest.
Proof.
  destruct fuel as [|fuel]; simpl;
    destruct (events_queue self) as [|cur rest] eqn:Hq; simpl; try discriminate.
  destruct (iteration policy level self cur rest) as [[self' d]|e].
  - destruct (run_loop policy level fuel self') as [steps o]. simpl.
    intros H. injection H as <-. simpl. eauto.
  - simpl. intros H. injection H as <-. simpl. eauto.
Qed.

End LoopFacts.

(** X16: [__update_process_states] sets to [READY] exactly the [NEW] processes
    whose arrival time has come and changes nothing else: afterwards no
    process that has arrived is [NEW], every other process is the one it
    was, the clock, the queue and [process_on_cpu] are untouched, and a
    second application changes nothing. *)
Theorem update_process_states_promotes_arrived {PS : Type} (self : des.SchedulerDES PS) :
  let self' := des.update_process_states self in
  Forall (fun p => process.arrival_time p <= des.time self ->
                   process.process_state p <> process.NEW) (des.processes self')
  /\ Forall2 (fun p p' =>
                (process.process_state p = process.NEW ->
                 process.arrival_time p <= des.time self ->
                 p' = process.set_process_state p process.READY)
                /\ (process.process_state p <> process.NEW
                    \/ des.time self < process.arrival_time p -> p' = p))
       (des.processes self) (des.processes self')
  /\ des.time self' = des.time self
  /\ des.events_queue self' = des.events_queue self
  /\ des.process_on_cpu self' = des.process_on_cpu self
  /\ des.update_process_states self' = self'.
Proof.
  cbv zeta. unfold des.update_process_states. simpl.
  split; [|split; [|split; [reflexivity | split; [reflexivity | split; [reflexivity|]]]]].
  - induction (des.processes self) as [|p l IH]; simpl; constructor; [|exact IH].
    apply (promote_cases (des.time self) p).
  - induction (des.processes self) as [|p l IH]; simpl; constructor; [|exact IH].
    destruct (promote_cases (des.time self) p) as (H1 & H2 & _). split; assumption.
  - unfold des.set_processes. simpl. f_equal. rewrite map_map. apply map_ext.
    intros p. destruct (promote_cases (des.time self) p) as (_ & _ & H3).
    cbv zeta in H3.
    set (p' := if Qleb (process.arrival_time p) (des.time self)
                  && process.ProcessStates_eqb (process.process_state p) process.NEW
               then process.set_process_state p process.READY else p) in *.
    destruct (Qleb (process.arrival_time p') (des.time self)) eqn:Ha; simpl;
      [|reflexivity].
    destruct (process.ProcessStates_eqb (process.process_state p') process.NEW) eqn:Hs;
      [|reflexivity].
    exfalso. apply ProcessStates_eqb_eq in Hs. apply Qleb_le in Ha. exact (H3 Ha Hs).
Qed.

(** X17: An iteration that does not raise leaves the rest of the queue with
    the dispatcher's event inserted, unless that event is a
    [PROC_CPU_DONE], which is never queued; the queue stays sorted, the
    clock is set to the time of the event, and the configuration is
    untouched. *)
Theorem iteration_queue_accounting {PS : Type} (policy : des.Policy PS)
    (level : logging.Level)
    (self : des.SchedulerDES PS) (cur : event.Event) (rest : list event.Event)
    (self' : des.SchedulerDES PS) (clk : Q) (ev : event.Event) :
  des.iteration policy level self cur rest = Ok (self', (clk, ev)) ->
  (event.event_type ev = event.PROC_CPU_DONE -> des.events_queue self' = rest)
  /\ (event.event_type ev <> event.PROC_CPU_DONE ->
      des.events_queue self' = des.insort rest ev
      /\ Permutation (des.events_queue self') (ev :: rest))
  /\ (des.scan_non_decreasing rest = true ->
      des.scan_non_decreasing (des.events_queue self') = true)
  /\ des.time self' = event.event_time ev
  /\ notions.configuration self' = notions.configuration self.
Proof.
  intros H. pose proof (iteration_clock policy level _ _ _ _ _ _ H) as (_ & _ & _ & Ht & _).
  apply events_queue_iteration in H as [Hq Hc].
  split; [|split; [|split; [|split; assumption]]].
  - intros Hd. rewrite Hq, Hd. reflexivity.
  - intros Hd. assert (E : event.EventTypes_eqb (event.event_type ev) event.PROC_CPU_DONE
                          = false).
    { destruct (event.event_type ev); try reflexivity. now elim Hd. }
    rewrite Hq, E. split; [reflexivity | apply insert_permutation].
  - intros Hs. rewrite Hq.
    destruct (event.EventTypes_eqb (event.event_type ev) event.PROC_CPU_DONE);
      [assumption|].
    apply scan_StronglySorted, insort_sorted, scan_StronglySorted, Hs.
Qed.

Lemma iteration_queue_accounting_witness :
  exists self' d,
    des.iteration fixtures.fcfs logging.WARNING (fixtures.generated 0)
      (event.mkEvent event.PROC_ARRIVES 1 0)
      [event.mkEvent event.PROC_ARRIVES 2 1; event.mkEvent event.PROC_ARRIVES 3 2]
    = Ok (self', d)
    /\ des.events_queue self'
       = [event.mkEvent event.PROC_ARRIVES 2 1; event.mkEvent event.PROC_ARRIVES 3 2].
Proof.
  destruct (des.iteration fixtures.fcfs logging.WARNING (fixtures.generated 0)
              (event.mkEvent event.PROC_ARRIVES 1 0)
              [event.mkEvent event.PROC_ARRIVES 2 1; event.mkEvent event.PROC_ARRIVES 3 2])
    as [[self' [clk ev]]|e] eqn:E; [|vm_compute in E; discriminate E].
  destruct (iteration_queue_accounting _ _ _ _ _ _ _ _ E) as (Hdone & _).
  exists self', (clk, ev). split; [reflexivity|]. apply Hdone.
  vm_compute in E. injection E as _ _ <-. reflexivity.
Defined.

(** X18: A run that finishes leaves an empty queue; one that is still going has
    a sorted, non-empty queue; in both the configuration is the one the
    simulator was built with. *)
Theorem run_outcome_queue {PS : Type} (policy : des.Policy PS)
    (level : logging.Level) (R : des.Random)
    (fuel : nat) (self : des.SchedulerDES PS) (s : option Z) (g : des.rng R) :
  match snd (des.run policy level R fuel self s g) with
  | des.Finished self' =>
      des.events_queue self' = []
      /\ notions.configuration self' = notions.configuration self
  | des.Unfinished self' =>
      des.scan_non_decreasing (des.events_queue self') = true
      /\ des.events_queue self' <> []
      /\ notions.configuration self' = notions.configuration self
  | des.Aborted _ => True
  end.
Proof.
  destruct (run_cases policy level R fuel self s g)
    as [[_ [e ->]]|(self1 & g1 & Hg & _ & _ & [-> | (self' & e & _ & _ & ->)])];
    try exact I.
  apply generate_and_init_spec in Hg as (_ & _ & _ & Hs & _ & Hc).
  pose proof (run_loop_invariant policy level fuel self1 Hs) as H.
  destruct (snd (des.run_loop policy level fuel self1)); try rewrite <- Hc.
  - exact H.
  - exact I.
  - destruct H as (H1 & H2 & H3). split; [apply scan_StronglySorted; exact H1|].
    split; assumption.
Qed.

(** X19: When an iteration calls the dispatcher, the popped event has left the
    queue, the selected process is the one recorded in [process_on_cpu] and it
    is [READY] in the table the dispatcher sees. *)
Theorem dispatcher_sees_ready_process {PS : Type} (policy : des.Policy PS)
    (level : logging.Level)
    (self : des.SchedulerDES PS) (cur : event.Event) (rest : list event.Event)
    (self' : des.SchedulerDES PS) (clk : Q) (ev : event.Event) :
  des.iteration policy level self cur rest = Ok (self', (clk, ev)) ->
  exists s p pr h,
    des.dispatcher_func policy s p = Ok h
    /\ des.hook_value h = ev
    /\ des.time s = clk
    /\ des.events_queue s = rest
    /\ des.process_on_cpu s = Some p
    /\ nth_error (des.processes s) p = Some pr
    /\ process.process_state pr = process.READY.
Proof.
  intros H. apply iteration_Ok in H as (s & p & h & Hs & Hd & -> & -> & _).
  apply select_Ok in Hs as (h0 & pr & _ & -> & _ & Hn & Hst).
  exists (des.switch (des.commit (des.advance self cur rest) h0) p), p, pr, h.
  destruct (switch_frame (des.commit (des.advance self cur rest) h0) p) as [_ Hcpu].
  destruct (advance_frame self cur rest) as (_ & _ & Hq).
  repeat split; try assumption.
  - unfold des.switch. destruct (des.differs p _); simpl; exact Hq.
  - unfold des.switch. destruct (des.differs p _); simpl; exact Hn.
Qed.

Lemma dispatcher_sees_ready_process_witness :
  exists s p pr h,
    des.dispatcher_func fixtures.fcfs s p = Ok h
    /\ des.time s = 1 + 2
    /\ nth_error (des.processes s) p = Some pr
    /\ process.process_state pr = process.READY.
Proof.
  destruct (des.iteration fixtures.fcfs logging.WARNING (fixtures.generated 2)
              (event.mkEvent event.PROC_ARRIVES 1 0)
              [event.mkEvent event.PROC_ARRIVES 2 1; event.mkEvent event.PROC_ARRIVES 3 2])
    as [[self' [clk ev]]|e] eqn:E; [|vm_compute in E; discriminate E].
  destruct (dispatcher_sees_ready_process _ _ _ _ _ _ _ _ E)
    as (s & p & pr & h & H1 & _ & H3 & _ & _ & H6 & H7).
  exists s, p, pr, h. repeat split; try assumption.
  rewrite H3. vm_compute in E. injection E as _ <- _. reflexivity.
Defined.

(** The string of a process can be built unless the process is
    [TERMINATED] without an execution interval, when reading its departure
    time raises [IndexError]. *)
Lemma process_str_cases (p : process.Process) :
  (process.__str__ p = Ok tt
   /\ (process.process_state p <> process.TERMINATED
       \/ process.execution_times p <> []))
  \/ (process.__str__ p = Raise (IndexError "list index out of range")
      /\ process.process_state p = process.TERMINATED
      /\ process.execution_times p = []).
Proof.
  unfold process.__str__, process.departure_time, process.last_interval.
  destruct (process.process_state p); simpl;
    try (left; split; [reflexivity | left; discriminate]).
  destruct (process.execution_times p) as [|iv l] eqn:E.
  - right. repeat split.
  - left. split; [|right; discriminate].
    destruct (rev (iv :: l)) as [|x r] eqn:Er; [|reflexivity].
    apply (f_equal (@rev _)) in Er. rewrite rev_involutive in Er. discriminate.
Qed.



(** The second refusal on a process that was set to [TERMINATED] before it
    ever ran: the message of the [ValueError] cannot be built. *)
Example refusal_of_terminated_process_without_interval :
  des.iteration fixtures.fcfs logging.WARNING notions.terminated_before_running
    (event.mkEvent event.PROC_ARRIVES 0 0) []
  = Raise (IndexError "list index out of range").
Proof. reflexivity. Qed.

(** X21: Along a run the clock at the start of an iteration is the time of the
    event the dispatcher returned in the iteration before, and the first
    iteration starts at clock 0 on the head of the generated queue. *)
Theorem run_clock_chain {PS : Type} (policy : des.Policy PS)
    (level : logging.Level) (R : des.Random)
    (fuel : nat) (self : des.SchedulerDES PS) (s : option Z) (g : des.rng R) :
  (forall st, nth_error (fst (des.run policy level R fuel self s g)) 0 = Some st ->
              des.clock_at_start st = 0)
  /\ forall k st1 st2 c ev,
       nth_error (fst (des.run policy level R fuel self s g)) k = Some st1 ->
       nth_error (fst (des.run policy level R fuel self s g)) (S k) = Some st2 ->
       des.dispatched st1 = Some (c, ev) ->
       des.clock_at_start st2 = event.event_time ev.
Proof.
  destruct (run_cases policy level R fuel self s g)
    as [[E _]|(self1 & g1 & Hg & _ & E & _)]; rewrite E.
  - split; [intros st H; discriminate | intros [|k] st1 st2 c ev H; discriminate].
  - apply generate_and_init_spec in Hg as (_ & _ & _ & _ & Ht & _).
    split.
    + intros st Hst. apply run_loop_first in Hst as [Hc _]. rewrite Hc. exact Ht.
    + intros k st1 st2 c ev. apply run_loop_chain.
Qed.

(** ** schedulers.py and the statistics *)

Section SchedulersFacts.
Import process event des notions.

Lemma processes_advance {PS : Type} (self : SchedulerDES PS) (cur : Event)
    (rest : list Event) :
  processes (advance self cur rest)
  = map (fun p =>
           if Qleb (arrival_time p) (time (advance self cur rest))
              && ProcessStates_eqb (process_state p) NEW
           then set_process_state p READY else p)
      (processes self).
Proof.
  unfold advance. destruct (Qltb _ _); reflexivity.
Qed.

(** After a generation of at least one process the queue is not empty,
    and its head is the arrival event of a process of the table. *)
Lemma generated_head {PS : Type} (R : Random) (self : SchedulerDES PS) (s : option Z)
    (g : rng R) (self1 : SchedulerDES PS) (g1 : rng R) :
  (0 < num_processes self)%Z ->
  generate_and_init R self s g = Ok (self1, g1) ->
  exists cur rest k p,
    events_queue self1 = cur :: rest
    /\ nth_error (processes self1) k = Some p
    /\ cur = arrival_event p
    /\ process.process_id p = Z.of_nat k
    /\ fresh p
    /\ time self1 = 0.
Proof.
  intros Hn Hg.
  apply generate_and_init_spec in Hg as (Hlen & Hids & Hperm & _ & Ht & _).
  destruct (events_queue self1) as [|cur rest] eqn:Hq.
  - apply Permutation_length in Hperm. rewrite length_map, Hlen in Hperm.
    simpl in Hperm. lia.
  - assert (Hin : In cur (map arrival_event (processes self1))).
    { eapply Permutation_in; [exact Hperm | left; reflexivity]. }
    apply in_map_iff in Hin as (p & Hp & Hin).
    apply In_nth_error in Hin as [k Hk].
    destruct (Hids k p Hk) as [Hid Hf].
    exists cur, rest, k, p.
    split; [reflexivity|]. split; [exact Hk|]. split; [symmetry; exact Hp|].
    split; [exact Hid|]. split; [exact Hf | exact Ht].
Qed.

Lemma fold_statistics_raise (l : list Process) (e : exn) :
  fold_left
    (fun (acc : result (Q * Q)) (p : Process) =>
       '(sum_turnaround_time, sum_waiting_time) <- acc ;;
       t <- turnaround_time p ;;
       Ok (sum_turnaround_time + t, sum_waiting_time + waiting_time p))
    l (Raise e)
  = Raise e.
Proof. induction l as [|p l IH]; simpl; [reflexivity | exact IH]. Qed.

Lemma fold_statistics_fails (l : list Process) :
  forall acc p,
    In p l -> is_ok (turnaround_time p) = false ->
    is_ok (fold_left
             (fun (acc : result (Q * Q)) (p : Process) =>
                '(sum_turnaround_time, sum_waiting_time) <- acc ;;
                t <- turnaround_time p ;;
                Ok (sum_turnaround_time + t, sum_waiting_time + waiting_time p))
             l acc)
    = false.
Proof.
  induction l as [|q l IH]; intros acc p Hin Hp; [contradiction|].
  simpl. destruct Hin as [->|Hin].
  - destruct acc as [[a b]|e]; simpl.
    + destruct (turnaround_time p); [discriminate|]. simpl.
      rewrite fold_statistics_raise. reflexivity.
    + rewrite fold_statistics_raise. reflexivity.
  - eapply IH; eassumption.
Qed.

Lemma turnaround_time_Ok (p : Process) :
  process_state p = TERMINATED -> execution_times p <> [] ->
  exists t, turnaround_time p = Ok t.
Proof.
  intros Hst Hne. unfold turnaround_time, departure_time, last_interval.
  rewrite Hst. simpl.
  destruct (rev (execution_times p)) as [|iv r] eqn:E.
  - exfalso. apply Hne. apply (f_equal (@rev _)) in E. rewrite rev_involutive in E.
    exact E.
  - eexists. reflexivity.
Qed.

Lemma fold_statistics_succeeds (l : list Process) :
  Forall (fun p => process_state p = TERMINATED /\ execution_times p <> []) l ->
  exists ts,
    Forall2 (fun p t => turnaround_time p = Ok t) l ts
    /\ forall a b,
         fold_left
           (fun (acc : result (Q * Q)) (p : Process) =>
              '(sum_turnaround_time, sum_waiting_time) <- acc ;;
              t <- turnaround_time p ;;
              Ok (sum_turnaround_time + t, sum_waiting_time + waiting_time p))
           l (Ok (a, b))
         = Ok (fold_left Qplus ts a, fold_left Qplus (map waiting_time l) b).
Proof.
  induction 1 as [|p l [Hst Hne] _ IH].
  - exists []. split; [constructor | reflexivity].
  - destruct (turnaround_time_Ok p Hst Hne) as [t Ht].
    destruct IH as (ts & Hts & Hf).
    exists (t :: ts). split; [constructor; assumption|].
    intros a b. simpl. rewrite Ht. simpl. apply Hf.
Qed.

(** The scheduler of [FCFS] passes the checks of the loop when the process
    of the current event is [READY]. *)
Lemma select_FCFS (x : SchedulerDES unit) (cur : Event) (k : nat) (pr : Process) :
  event.process_id cur = Z.of_nat k ->
  nth_error (processes x) k = Some pr ->
  process_state pr = READY ->
  process_on_cpu x = None ->
  select schedulers.FCFS x cur = Ok (x, k).
Proof.
  intros Hid Hk Hst Hcpu. unfold select, schedulers.FCFS. cbn [scheduler_func].
  assert (Hklt : (k < length (processes x))%nat).
  { apply nth_error_Some. congruence. }
  unfold schedulers.index. rewrite Hid.
  replace (0 <=? Z.of_nat k)%Z with true by (symmetry; apply Z.leb_le; lia).
  replace (Z.of_nat k <? Z.of_nat (length (processes x)))%Z
    with true by (symmetry; apply Z.ltb_lt; lia).
  cbn [andb bind hook_value]. rewrite Nat2Z.id.
  assert (Hc : commit x (mkHook (processes x) (policy_state x) (Some k)) = x).
  { destruct x. reflexivity. }
  unfold str_process_on_cpu. rewrite Hc, Hk, Hst, Hcpu. reflexivity.
Qed.

Lemma each_str_unterminated (ps : list Process) :
  Forall (fun p => process_state p <> TERMINATED) ps -> each_str ps = Ok tt.
Proof.
  induction 1 as [|p ps Hp _ IH]; simpl; [reflexivity|].
  unfold process.__str__.
  destruct (process_state p); try exact IH. now elim Hp.
Qed.

Lemma log_processes_unterminated {PS : Type} (level asked : logging.Level)
    (self : SchedulerDES PS) :
  Forall (fun p => process_state p <> TERMINATED) (processes self) ->
  log_processes level asked self = Ok tt.
Proof.
  intros H. unfold log_processes, print_processes.
  destruct (negb _); [reflexivity | apply each_str_unterminated; exact H].
Qed.

Lemma generated_unterminated {PS : Type} (R : Random) (self : SchedulerDES PS)
    (s : option Z) (g : rng R) (self1 : SchedulerDES PS) (g1 : rng R) :
  generate_and_init R self s g = Ok (self1, g1) ->
  Forall (fun p => process_state p = NEW) (processes self1).
Proof.
  intros Hg. apply generate_and_init_spec in Hg as (_ & Hids & _).
  apply Forall_forall. intros p Hin. apply In_nth_error in Hin as [k Hk].
  destruct (Hids k p Hk) as [_ [Hst _]]. exact Hst.
Qed.

Lemma advance_unterminated {PS : Type} (self : SchedulerDES PS) (cur : Event)
    (rest : list Event) :
  Forall (fun p => process_state p = NEW) (processes self) ->
  Forall (fun p => process_state p <> TERMINATED) (processes (advance self cur rest)).
Proof.
  intros H. rewrite processes_advance. rewrite Forall_map.
  eapply Forall_impl; [| exact H]. intros p Hp. cbv beta in Hp.
  destruct (Qleb _ _ && _); simpl; [discriminate | rewrite Hp; discriminate].
Qed.

End SchedulersFacts.

(** X22: Under the hooks [SchedulerDES] defines, which [SJF], [RR] and [SRTF]
    inherit, no run gets past its first iteration: once a workload of at
    least one process is generated, the scheduler selects nothing and [run]
    raises [ValueError] at clock 0, before any process has run. *)
Theorem inherited_hooks_abort_run (level : logging.Level) (R : des.Random)
    (fuel : nat) (self : des.SchedulerDES unit) (s : option Z) (g : des.rng R)
    (policy : des.Policy unit) :
  policy = schedulers.SJF \/ policy = schedulers.RR \/ policy = schedulers.SRTF ->
  (0 < des.num_processes self)%Z ->
  is_ok (des.generate_and_init R self s g) = true ->
  exists cur,
    des.run policy level R (S fuel) self s g
    = ([des.mkStep 0 cur None],
       des.Aborted (ValueError "Scheduler didn't select any process to run!!!")).
Proof.
  intros Hp Hn Hg.
  assert (policy = schedulers.base) as -> by (destruct Hp as [->|[->| ->]]; reflexivity).
  unfold des.run.
  destruct (des.generate_and_init R self s g) as [[self1 g1]|e] eqn:E; [|discriminate].
  pose proof (generated_unterminated R self s g self1 g1 E) as Hnew.
  rewrite (log_processes_unterminated level logging.DEBUG self1).
  2:{ eapply Forall_impl; [| exact Hnew]. intros q Hq. rewrite Hq. discriminate. }
  destruct (generated_head R self s g self1 g1 Hn E)
    as (cur & rest & k & p & Hq & _ & _ & _ & _ & Ht).
  exists cur. cbn [des.run_loop]. rewrite Hq, Ht.
  assert (Hnone : des.iteration schedulers.base level self1 cur rest
                  = Raise (ValueError "Scheduler didn't select any process to run!!!")).
  { unfold des.iteration.
    rewrite (log_processes_unterminated level logging.INFO _
               (advance_unterminated self1 cur rest Hnew)).
    reflexivity. }
  rewrite Hnone. reflexivity.
Qed.

Lemma inherited_hooks_abort_run_witness :
  exists cur,
    des.run schedulers.RR logging.DEBUG
      (fixtures.replay fixtures.tape) 10 (fixtures.simulator 0) (Some 1%Z) []
    = ([des.mkStep 0 cur None],
       des.Aborted (ValueError "Scheduler didn't select any process to run!!!")).
Proof.
  apply (inherited_hooks_abort_run logging.DEBUG (fixtures.replay fixtures.tape) 9
           (fixtures.simulator 0) (Some 1%Z) [] schedulers.RR).
  - right. left. reflexivity.
  - reflexivity.
  - reflexivity.
Defined.

(** X23: Under [FCFS] as it stands no run gets past its first iteration either:
    the scheduler selects the process of the first arrival, which the loop
    finds [READY], and the dispatcher raises [AttributeError] on its first
    statement. *)
Theorem fcfs_aborts_run (level : logging.Level) (R : des.Random) (fuel : nat)
    (self : des.SchedulerDES unit) (s : option Z) (g : des.rng R) :
  (0 < des.num_processes self)%Z ->
  is_ok (des.generate_and_init R self s g) = true ->
  exists cur,
    des.run schedulers.FCFS level R (S fuel) self s g
    = ([des.mkStep 0 cur None],
       des.Aborted
         (AttributeError "'Process' object has no attribute '_FCFS__process_state'")).
Proof.
  intros Hn Hg. unfold des.run.
  destruct (des.generate_and_init R self s g) as [[self1 g1]|e] eqn:E; [|discriminate].
  pose proof (generated_unterminated R self s g self1 g1 E) as Hnew.
  pose proof (generate_and_init_frame _ _ _ _ _ _ E) as [_ Hcpu].
  rewrite (log_processes_unterminated level logging.DEBUG self1).
  2:{ eapply Forall_impl; [| exact Hnew]. intros q Hq. rewrite Hq. discriminate. }
  destruct (generated_head R self s g self1 g1 Hn E)
    as (cur & rest & k & p & Hq & Hk & -> & Hid & Hf & Ht).
  destruct Hf as (Hst & _ & _ & Harr & _).
  exists (notions.arrival_event p). cbn [des.run_loop]. rewrite Hq, Ht.
  set (cur := notions.arrival_event p) in *.
  assert (Hsel : des.select schedulers.FCFS (des.advance self1 cur rest) cur
                 = Ok (des.advance self1 cur rest, k)).
  { apply (select_FCFS _ _ _ (process.set_process_state p process.READY)).
    - exact Hid.
    - rewrite processes_advance. rewrite (map_nth_error _ _ _ Hk).
      destruct (promote_cases (des.time (des.advance self1 cur rest)) p) as (Hpr & _).
      cbv zeta in Hpr. rewrite Hpr.
      + reflexivity.
      + exact Hst.
      + rewrite time_advance, Ht. unfold cur. simpl event.event_time.
        destruct (Qltb 0 (process.arrival_time p)) eqn:Hl.
        * apply Qle_refl.
        * apply Qltb_ge in Hl. exact Hl.
    - reflexivity.
    - destruct (advance_frame self1 cur rest) as (_ & Hc & _). rewrite Hc. exact Hcpu. }
  unfold des.iteration.
  rewrite (log_processes_unterminated level logging.INFO _
             (advance_unterminated self1 cur rest Hnew)).
  cbn [bind]. rewrite Hsel. reflexivity.
Qed.

Lemma fcfs_aborts_run_witness :
  exists cur,
    des.run schedulers.FCFS logging.INFO
      (fixtures.replay fixtures.tape) 10 (fixtures.simulator 2) (Some 1%Z) []
    = ([des.mkStep 0 cur None],
       des.Aborted
         (AttributeError "'Process' object has no attribute '_FCFS__process_state'")).
Proof.
  apply (fcfs_aborts_run logging.INFO (fixtures.replay fixtures.tape) 9
           (fixtures.simulator 2) (Some 1%Z) []).
  - reflexivity.
  - reflexivity.
Defined.

(** X24: [print_statistics] raises on an empty process table (the division by
    its length) and whenever some process has no departure time, that is
    when it is not [TERMINATED]; when every process is [TERMINATED] and has
    run it returns the sum of the turnaround times and the sum of the
    waiting times, each added up from 0 in the order of the table and
    divided by the number of processes. *)
Theorem print_statistics_outcomes {PS : Type} (self : des.SchedulerDES PS) :
  (des.processes self = [] ->
   des.print_statistics self = Raise (ZeroDivisionError "float division by zero"))
  /\ (forall p, In p (des.processes self) ->
                process.process_state p <> process.TERMINATED ->
                is_ok (des.print_statistics self) = false)
  /\ (des.processes self <> [] ->
      Forall (fun p => process.process_state p = process.TERMINATED
                       /\ process.execution_times p <> []) (des.processes self) ->
      exists turnarounds,
        Forall2 (fun p t => process.turnaround_time p = Ok t)
          (des.processes self) turnarounds
        /\ des.print_statistics self
           = Ok (fold_left Qplus turnarounds 0
                 / inject_Z (Z.of_nat (length (des.processes self))),
                 fold_left Qplus (map process.waiting_time (des.processes self)) 0
                 / inject_Z (Z.of_nat (length (des.processes self))))).
Proof.
  unfold des.print_statistics. split; [|split].
  - intros ->. reflexivity.
  - intros p Hin Hst.
    assert (Hbad : is_ok (process.turnaround_time p) = false).
    { unfold process.turnaround_time, process.departure_time.
      destruct (process.process_state p); try reflexivity. now elim Hst. }
    pose proof (fold_statistics_fails (des.processes self) (Ok (0, 0)) p Hin Hbad) as Hf.
    destruct (fold_left _ (des.processes self) (Ok (0, 0))); [discriminate|].
    reflexivity.
  - intros Hne Hall.
    destruct (fold_statistics_succeeds (des.processes self) Hall) as (ts & Hts & Hf).
    exists ts. split; [exact Hts|].
    rewrite Hf. cbn [bind]. destruct (des.processes self) as [|p l] eqn:El;
      [now elim Hne | reflexivity].
Qed.

Lemma print_statistics_outcomes_witness :
  is_ok (des.print_statistics fixtures.idle_with_ready_process) = false
  /\ exists averages, des.print_statistics fixtures.used_simulator = Ok averages.
Proof.
  split.
  - refine (proj1 (proj2 (print_statistics_outcomes fixtures.idle_with_ready_process))
              _ _ _).
    + left. reflexivity.
    + discriminate.
  - destruct (proj2 (proj2 (print_statistics_outcomes fixtures.used_simulator)))
      as (ts & _ & H).
    + discriminate.
    + repeat constructor; discriminate.
    + eexists. exact H.
Defined.

(** ** The strings built for the log *)

Section LogFacts.
Import process event des.

Lemma each_str_raises (ps : list Process) (q : Process) :
  In q ps -> process_state q = TERMINATED -> execution_times q = [] ->
  each_str ps = Raise (IndexError "list index out of range").
Proof.
  induction ps as [|p ps IH]; intros Hin Hst He; [contradiction|].
  simpl. destruct Hin as [->|Hin].
  - unfold process.__str__, departure_time, last_interval.
    rewrite Hst, He. reflexivity.
  - destruct (process_str_cases p) as [[-> _]|[-> _]]; cbn [bind];
      [apply IH; assumption | reflexivity].
Qed.

End LogFacts.

(** X25: The messages handed to the logger are built whether or not they are
    emitted.  When the process recorded in [process_on_cpu] is [TERMINATED]
    without an execution interval, the iteration raises [IndexError] at the
    message that names it, even though the scheduler selected a [READY]
    process, and the dispatcher is not called.  When the logger is enabled
    for [INFO], the same happens as soon as any process of the table is
    [TERMINATED] without an interval, before the scheduler is called. *)
Theorem iteration_raises_building_log_message {PS : Type} (policy : des.Policy PS)
    (level : logging.Level) (self : des.SchedulerDES PS) (cur : event.Event)
    (rest : list event.Event) (q : process.Process) :
  process.process_state q = process.TERMINATED ->
  process.execution_times q = [] ->
  (forall h i pr j,
     des.log_processes level logging.INFO (des.advance self cur rest) = Ok tt ->
     des.scheduler_func policy (des.advance self cur rest) cur = Ok h ->
     des.hook_value h = Some i ->
     nth_error (des.hook_processes h) i = Some pr ->
     process.process_state pr = process.READY ->
     des.process_on_cpu self = Some j ->
     nth_error (des.hook_processes h) j = Some q ->
     des.iteration policy level self cur rest
     = Raise (IndexError "list index out of range"))
  /\ (logging.isEnabledFor level logging.INFO = true ->
      In q (des.processes (des.advance self cur rest)) ->
      des.iteration policy level self cur rest
      = Raise (IndexError "list index out of range")).
Proof.
  intros Hst He. split.
  - intros h i pr j Hlog Hh Hv Hn Hr Hcpu Hj.
    unfold des.iteration, des.select. rewrite Hlog, Hh. cbn [bind]. rewrite Hv.
    change (des.processes (des.commit (des.advance self cur rest) h))
      with (des.hook_processes h).
    rewrite Hn. unfold des.str_process_on_cpu.
    change (des.process_on_cpu (des.commit (des.advance self cur rest) h))
      with (des.process_on_cpu (des.advance self cur rest)).
    destruct (advance_frame self cur rest) as (_ & Hc & _). rewrite Hc, Hcpu.
    change (des.processes (des.commit (des.advance self cur rest) h))
      with (des.hook_processes h).
    rewrite Hj.
    unfold process.__str__, process.departure_time, process.last_interval.
    rewrite Hst, He. reflexivity.
  - intros Hen Hin. unfold des.iteration, des.log_processes, des.print_processes.
    rewrite Hen. simpl negb. cbv iota.
    rewrite (each_str_raises _ q Hin Hst He). reflexivity.
Qed.

Lemma iteration_raises_building_log_message_witness :
  des.iteration fixtures.fcfs logging.WARNING notions.cpu_held_by_terminated
    (event.mkEvent event.PROC_ARRIVES 0 1) []
  = Raise (IndexError "list index out of range").
Proof.
  refine (proj1 (iteration_raises_building_log_message fixtures.fcfs logging.WARNING
                   notions.cpu_held_by_terminated
                   (event.mkEvent event.PROC_ARRIVES 0 1) []
                   (process.mkProcess 0 0 process.TERMINATED 5 5 []) eq_refl eq_refl)
            _ 1%nat (process.mkProcess 1 0 process.READY 5 5 []) 0%nat
            eq_refl eq_refl eq_refl eq_refl eq_refl eq_refl eq_refl).
Defined.
